(** * OsmPicker: a coordinate picker binding a text input to a Leaflet map

    A shallow embedding of [src/osmpicker.js].  The widget keeps three things
    in step: the text of an input element, the view of a Leaflet map and at
    most one marker on that map.  The closure variables of [OsmPicker]
    ([_inputElement], [_map], [_marker], ...) become the fields of a state
    record; every function of the file becomes a computation over that record
    which may complete normally or abruptly (a JavaScript [throw]).

    The source file holds two revisions of the constructor.  They share
    [_getLatLngFromInput], [_setMarker], [setInputFromLatLng] and the two
    listeners word for word; the embedding follows the first revision, the
    one that takes a single [settings] object, and gives the constructor of
    the second as [OsmPicker2].

    Two collaborators are not part of the repository and are modelled here:
    - the JavaScript runtime (primitive values, [ToString], [ToNumber],
      truthiness, [split] and [join]); numbers are kept abstract behind the
      class [JsNumber], with a decimal instance at the end of the file;
    - Leaflet 1.6.0, the version the README loads ([L.latLng], [L.marker],
      [addTo], [removeLayer], [setView]). *)

From Stdlib Require Import String Ascii List Bool Arith Lia.
Import ListNotations.
Local Open Scope list_scope.
Local Open Scope string_scope.

(** ** Strings: the two text operations the picker relies on *)

Module JsString.

Definition comma : ascii := ","%char.

(** [s.split(',')]: the pieces of [s] between commas.  The empty string
    splits into one empty piece, as in JavaScript. *)
Fixpoint split (s : string) : list string :=
  match s with
  | EmptyString => [EmptyString]
  | String c s' =>
      if Ascii.eqb c comma then EmptyString :: split s'
      else match split s' with
           | piece :: pieces => String c piece :: pieces
           | [] => [String c EmptyString]
           end
  end.

(** No comma occurs in [s]. *)
Fixpoint no_comma (s : string) : bool :=
  match s with
  | EmptyString => true
  | String c s' => negb (Ascii.eqb c comma) && no_comma s'
  end.

Definition is_empty (s : string) : bool :=
  match s with EmptyString => true | _ => false end.

End JsString.

(** ** Numbers of the runtime *)

(** The picker never computes with numbers: it prints them, reads them back
    and tests them.  The operations it needs are gathered in an interface, so
    that the development does not depend on a representation of IEEE doubles. *)
Class JsNumber : Type := {
  number : Type;
  (** the value [NaN] *)
  NaN : number;
  (** [Number.isNaN] *)
  num_isNaN : number -> bool;
  (** [x === 0], true of both zeros *)
  num_isZero : number -> bool;
  (** [Number::toString(x)] in radix 10 *)
  NumberToString : number -> string;
  (** [StringToNumber(s)], the meaning of unary [+] on a string; also the
      value of a decimal literal written as the text [s] *)
  StringToNumber : string -> number;
  (** strict equality [x === y] on numbers *)
  num_eqb : number -> number -> bool
}.

(** What ECMAScript guarantees of these operations and the round-trip
    property needs. *)
Class JsNumberLaws (N : JsNumber) : Prop := {
  (** printing a number and reading the text back gives an equal number *)
  NumberToString_roundtrip :
    forall n, num_isNaN n = false ->
              num_eqb (StringToNumber (NumberToString n)) n = true;
  (** [NaN] is equal to nothing *)
  num_eqb_not_NaN :
    forall x y, num_eqb x y = true -> num_isNaN x = false;
  num_eqb_refl :
    forall x, num_isNaN x = false -> num_eqb x x = true;
  (** no printed number, and no numeric text, contains a comma *)
  NumberToString_no_comma :
    forall n, JsString.no_comma (NumberToString n) = true;
  numeric_no_comma :
    forall s, num_isNaN (StringToNumber s) = false -> JsString.no_comma s = true
}.

Section Picker.

Context {N : JsNumber}.

(** ** Values *)

(** Primitive values. *)
Inductive prim : Type :=
| Undefined
| Null
| Bool (b : bool)
| Num (n : number)
| Str (s : string).

(** An instance of Leaflet's [L.LatLng]. *)
Record LatLng : Type := mkLatLng {
  lat : number;
  lng : number;
  alt : option number
}.

(** A plain object, seen through the four properties that Leaflet and the
    picker read from a coordinate; [None] is a property that is absent. *)
Record PlainObject : Type := mkObject {
  prop_lat : option prim;
  prop_lng : option prim;
  prop_lon : option prim;
  prop_alt : option prim
}.

(** The values that reach the picker: primitives, arrays of primitives,
    [L.LatLng] instances and plain objects. *)
Inductive jsval : Type :=
| Prim (p : prim)
| Arr (elems : list prim)
| LatLngObj (ll : LatLng)
| Obj (o : PlainObject).

Definition undefined : jsval := Prim Undefined.
Definition null : jsval := Prim Null.

(** Reading a property: an absent one reads as [undefined]. *)
Definition get (p : option prim) : prim :=
  match p with Some v => v | None => Undefined end.

Definition is_undefined (v : jsval) : bool :=
  match v with Prim Undefined => true | _ => false end.

(** [typeof p === 'object'] on a primitive: true of [null] only. *)
Definition typeof_object (p : prim) : bool :=
  match p with Null => true | _ => false end.

(** [ToString] on primitives. *)
Definition ToString (p : prim) : string :=
  match p with
  | Undefined => "undefined"
  | Null => "null"
  | Bool true => "true"
  | Bool false => "false"
  | Num n => NumberToString n
  | Str s => s
  end.

(** [Array.prototype.join(',')]: [undefined] and [null] elements print as
    the empty string. *)
Definition join_element (p : prim) : string :=
  match p with
  | Undefined | Null => ""
  | _ => ToString p
  end.

Fixpoint join (l : list prim) : string :=
  match l with
  | [] => ""
  | [x] => join_element x
  | x :: rest => join_element x ++ "," ++ join rest
  end.

(** A decimal literal of the source text. *)
Definition literal (s : string) : number := StringToNumber s.

(** [ToNumber]. An array converts through its [join]; the string forms of
    [L.LatLng] instances and of plain objects are not numeric. *)
Definition ToNumber_prim (p : prim) : number :=
  match p with
  | Undefined => NaN
  | Null => literal "0"
  | Bool true => literal "1"
  | Bool false => literal "0"
  | Num n => n
  | Str s => StringToNumber s
  end.

Definition ToNumber (v : jsval) : number :=
  match v with
  | Prim p => ToNumber_prim p
  | Arr l => StringToNumber (join l)
  | LatLngObj _ => NaN
  | Obj _ => NaN
  end.

(** The global [isNaN(v)]. *)
Definition isNaN (v : jsval) : bool := num_isNaN (ToNumber v).

(** [ToBoolean]: what [||] and [if] test. *)
Definition truthy (v : jsval) : bool :=
  match v with
  | Prim Undefined | Prim Null => false
  | Prim (Bool b) => b
  | Prim (Num n) => negb (num_isNaN n || num_isZero n)
  | Prim (Str s) => negb (JsString.is_empty s)
  | Arr _ | LatLngObj _ | Obj _ => true
  end.

(** [a || b] *)
Definition or_else (a b : jsval) : jsval := if truthy a then a else b.

(** ** Completions *)

(** The two exceptions that can arise: a [TypeError] of the runtime (a
    property read from [null] or [undefined], in the picker or inside
    Leaflet), and the [Error('Invalid LatLng object: (lat, lng)')] that
    Leaflet's [LatLng] constructor throws. *)
Inductive error : Type :=
| TypeError
| InvalidLatLng (lat lng : jsval).

Inductive completion (A : Type) : Type :=
| Normal (a : A)
| Throw (e : error).
Arguments Normal {A} a.
Arguments Throw {A} e.

(** ** Leaflet: coordinates *)

(** [new L.LatLng(lat, lng, alt)].  Leaflet's constructor starts with
    [if (isNaN(lat) || isNaN(lng)) throw new Error('Invalid LatLng object:
    ...')], then stores [+lat], [+lng] and, unless [alt] is [undefined],
    [+alt]. *)
Definition LatLng_new (a b c : jsval) : completion jsval :=
  if isNaN a || isNaN b then Throw (InvalidLatLng a b)
  else Normal (LatLngObj {| lat := ToNumber a;
                            lng := ToNumber b;
                            alt := if is_undefined c then None
                                   else Some (ToNumber c) |}).

(** [L.latLng(a, b, c)], Leaflet's [toLatLng], case by case in the order of
    its source: an instance is returned as it is; an array whose first
    element is no object is converted if it has two or three elements and
    gives [null] otherwise; [undefined] and [null] are returned as they are;
    an object with a [lat] property is converted, its longitude read from
    [lng] or else from [lon]; anything else gives [null] without a second
    argument and goes to the constructor with one. *)
Definition L_latLng (a b c : jsval) : completion jsval :=
  let positional :=
    if is_undefined b then Normal null else LatLng_new a b c in
  match a with
  | LatLngObj _ => Normal a
  | Arr l =>
      if negb (typeof_object (nth 0 l Undefined)) then
        match l with
        | [x; y; z] => LatLng_new (Prim x) (Prim y) (Prim z)
        | [x; y] => LatLng_new (Prim x) (Prim y) undefined
        | _ => Normal null
        end
      else positional
  | Prim Undefined | Prim Null => Normal a
  | Obj o =>
      match prop_lat o with
      | Some la =>
          LatLng_new (Prim la)
                     (Prim (match prop_lng o with
                            | Some lo => lo
                            | None => get (prop_lon o)
                            end))
                     (Prim (get (prop_alt o)))
      | None => positional
      end
  | Prim _ => positional
  end.

(** ** The document *)

(** The bound input element: the picker reads and writes its [value]. *)
Record InputElement : Type := mkInput { value : string }.

(** The element the map is rendered in. *)
Record DivElement : Type := mkDiv { elem_id : string; elem_style : string }.

(** [document.getElementById], restricted to input elements. *)
Definition Document : Type := string -> option InputElement.

(** ** Leaflet: the map and its layers *)

Inductive Layer : Type :=
| TileLayer (urlTemplate attribution : string)
| MarkerLayer (latlng : LatLng).

(** A map: its container, its view, and the layers added to it, each under
    the identifier Leaflet stamps on it.  The view records what was asked
    of [setView]; zoom limits and animation are not modelled. *)
Record Map : Type := mkMap {
  _container : DivElement;
  _lastCenter : option LatLng;
  _zoom : jsval;
  _layers : list (nat * Layer)
}.

(** A marker object: its identity and the position it was created with. *)
Record Marker : Type := mkMarker {
  _leaflet_id : nat;
  _latlng : jsval
}.

Definition L_map (container : DivElement) : Map :=
  {| _container := container; _lastCenter := None; _zoom := undefined;
     _layers := [] |}.

Definition hasLayer (i : nat) (m : Map) : bool :=
  existsb (fun l => Nat.eqb (fst l) i) (_layers m).

Definition add_layer (l : nat * Layer) (m : Map) : Map :=
  {| _container := _container m; _lastCenter := _lastCenter m;
     _zoom := _zoom m; _layers := (_layers m ++ [l])%list |}.

Definition remove_layer (i : nat) (m : Map) : Map :=
  {| _container := _container m; _lastCenter := _lastCenter m;
     _zoom := _zoom m;
     _layers := filter (fun l => negb (Nat.eqb (fst l) i)) (_layers m) |}.

Definition set_view (c : LatLng) (z : jsval) (m : Map) : Map :=
  {| _container := _container m; _lastCenter := Some c;
     _zoom := z; _layers := _layers m |}.

(** The marker layers of a map, in the order they were added. *)
Fixpoint marker_layers (ls : list (nat * Layer)) : list (nat * LatLng) :=
  match ls with
  | [] => []
  | (i, MarkerLayer ll) :: rest => (i, ll) :: marker_layers rest
  | (_, TileLayer _ _) :: rest => marker_layers rest
  end.

(** ** The picker's state *)

(** The closure variables of [OsmPicker], Leaflet's identifier counter
    ([Util.lastId]) and, as a history variable that no code reads, the
    arguments [_setMarker] has been called with, oldest first. *)
Record Picker : Type := mkPicker {
  _inputElement : InputElement;
  _mapElement : DivElement;
  _map : Map;
  _marker : option Marker;
  lastId : nat;
  setMarker_calls : list jsval
}.

Definition set_value (s : string) (p : Picker) : Picker :=
  mkPicker (mkInput s) (_mapElement p) (_map p) (_marker p) (lastId p)
           (setMarker_calls p).

Definition set_map (m : Map) (p : Picker) : Picker :=
  mkPicker (_inputElement p) (_mapElement p) m (_marker p) (lastId p)
           (setMarker_calls p).

Definition set_marker (mk : option Marker) (p : Picker) : Picker :=
  mkPicker (_inputElement p) (_mapElement p) (_map p) mk (lastId p)
           (setMarker_calls p).

Definition set_lastId (i : nat) (p : Picker) : Picker :=
  mkPicker (_inputElement p) (_mapElement p) (_map p) (_marker p) i
           (setMarker_calls p).

Definition record_call (v : jsval) (p : Picker) : Picker :=
  mkPicker (_inputElement p) (_mapElement p) (_map p) (_marker p) (lastId p)
           (setMarker_calls p ++ [v])%list.

(** ** Computations: state that survives an exception *)

Definition M (A : Type) : Type := Picker -> completion A * Picker.

Definition ret {A} (a : A) : M A := fun p => (Normal a, p).

Definition throw {A} (e : error) : M A := fun p => (Throw e, p).

Definition bind {A B} (m : M A) (k : A -> M B) : M B :=
  fun p => match m p with
           | (Normal a, p') => k a p'
           | (Throw e, p') => (Throw e, p')
           end.

Definition lift {A} (c : completion A) : M A := fun p => (c, p).

Definition gets {A} (f : Picker -> A) : M A := fun p => (Normal (f p), p).

Definition modify (f : Picker -> Picker) : M unit :=
  fun p => (Normal tt, f p).

Notation "x <- m ;; k" := (bind m (fun x => k))
  (at level 61, m at next level, right associativity).
Notation "m ;;; k" := (bind m (fun _ => k))
  (at level 61, right associativity).

(** ** Leaflet: operations on the picker's map *)

(** A new object and the identifier [Util.stamp] gives it. *)
Definition fresh_id : M nat :=
  fun p => (Normal (S (lastId p)), set_lastId (S (lastId p)) p).

(** [L.marker(latlng)]: the position goes through [toLatLng]. *)
Definition L_marker (latlng : jsval) : M Marker :=
  pos <- lift (L_latLng latlng undefined undefined) ;;
  i <- fresh_id ;;
  ret {| _leaflet_id := i; _latlng := pos |}.

(** [marker.addTo(_map)], that is [_map.addLayer(marker)]: a layer already
    on the map is not added again.  A marker whose position is [null] cannot
    be placed: Leaflet fails with a [TypeError] when it projects the
    position to put the icon there ([latlng.lat] on [null]).  The map of the
    model holds the markers that stand at a coordinate, so it keeps nothing
    of the marker that failed. *)
Definition Marker_addTo (mk : Marker) : M Marker :=
  m <- gets _map ;;
  if hasLayer (_leaflet_id mk) m then ret mk
  else match _latlng mk with
       | LatLngObj ll =>
           modify (set_map (add_layer (_leaflet_id mk, MarkerLayer ll) m)) ;;;
           ret mk
       | _ => throw TypeError
       end.

(** [_map.removeLayer(marker)] *)
Definition Map_removeLayer (mk : Marker) : M unit :=
  modify (fun p => set_map (remove_layer (_leaflet_id mk) (_map p)) p).

(** [_map.setView(center, zoom)]: an omitted zoom keeps the current one.  A
    centre that [toLatLng] turns into no coordinate makes Leaflet fail with
    a [TypeError]; the model then leaves the view as it was. *)
Definition Map_setView (center zoom : jsval) : M unit :=
  c <- lift (L_latLng center undefined undefined) ;;
  match c with
  | LatLngObj ll =>
      modify (fun p =>
                set_map (set_view ll (if is_undefined zoom
                                      then _zoom (_map p) else zoom)
                                  (_map p)) p)
  | _ => throw TypeError
  end.

(** [L.tileLayer(url, {attribution}).addTo(_map)] *)
Definition L_tileLayer_addTo (url attribution : string) : M unit :=
  i <- fresh_id ;;
  modify (fun p => set_map (add_layer (i, TileLayer url attribution) (_map p)) p).

(** ** The picker: [src/osmpicker.js] *)

(** The arguments [Function.prototype.apply] passes from an array of
    strings: a missing one is [undefined]. *)
Definition argument (i : nat) (parts : list string) : jsval :=
  match nth_error parts i with
  | Some s => Prim (Str s)
  | None => undefined
  end.

(** [_getLatLngFromInput]: [null] for an empty input, else [L.latLng]
    applied to the pieces of the text between commas. *)
Definition _getLatLngFromInput : M jsval :=
  text <- gets (fun p => value (_inputElement p)) ;;
  if negb (JsString.is_empty text) then
    let parts := JsString.split text in
    lift (L_latLng (argument 0 parts) (argument 1 parts) (argument 2 parts))
  else ret null.

(** [_setMarker(latLng)]: remove the marker held in [_marker], if any, then
    create a marker at [latLng], add it to the map and keep it in [_marker].
    The first line records the call in the history variable. *)
Definition _setMarker (latLng : jsval) : M unit :=
  modify (record_call latLng) ;;;
  held <- gets _marker ;;
  match held with
  | Some old => Map_removeLayer old
  | None => ret tt
  end ;;;
  created <- L_marker latLng ;;
  added <- Marker_addTo created ;;
  modify (set_marker (Some added)).

(** The text [setInputFromLatLng] writes: the [join] of an array, else the
    [lat] and [lng] properties around a comma.  Reading a property of
    [undefined] or [null] is a [TypeError]; other primitives have neither
    property. *)
Definition coordinate_text (latLng : jsval) : completion string :=
  match latLng with
  | Arr l => Normal (join l)
  | LatLngObj ll => Normal (NumberToString (lat ll) ++ "," ++ NumberToString (lng ll))
  | Obj o => Normal (ToString (get (prop_lat o)) ++ "," ++ ToString (get (prop_lng o)))
  | Prim Undefined | Prim Null => Throw TypeError
  | Prim _ => Normal (ToString Undefined ++ "," ++ ToString Undefined)
  end.

(** [this.setInputFromLatLng(latLng)] *)
Definition setInputFromLatLng (latLng : jsval) : M unit :=
  text <- lift (coordinate_text latLng) ;;
  modify (set_value text) ;;;
  Map_setView latLng undefined ;;;
  _setMarker latLng.

(** The listener of the map's [click] event; [e_latlng] is [e.latlng]. *)
Definition on_click (e_latlng : LatLng) : M unit :=
  modify (set_value (NumberToString (lat e_latlng) ++ ","
                     ++ NumberToString (lng e_latlng))) ;;;
  _setMarker (LatLngObj e_latlng).

(** The listener of the input's [change] event. *)
Definition on_change : M unit :=
  parsed <- _getLatLngFromInput ;;
  _setMarker parsed.

(** [this.getMap()] *)
Definition getMap (p : Picker) : Map := _map p.

(** *** Construction *)

(** [settings.defaultView] *)
Record DefaultView : Type := mkDefaultView {
  latLng : jsval;
  zoom : jsval
}.

(** The [settings] argument; [None] is a property that is absent. *)
Record Settings : Type := mkSettings {
  selector : option string;
  inputElement : option InputElement;
  mapElement : option DivElement;
  defaultView : option DefaultView
}.

(** [{}] *)
Definition no_settings : Settings :=
  {| selector := None; inputElement := None; mapElement := None;
     defaultView := None |}.

Definition no_view : DefaultView :=
  {| latLng := undefined; zoom := undefined |}.

(** [L.latLng(47.4953, 19.0645)]: both arguments are numbers, the value is
    the instance holding them. *)
Definition fallback_latLng : jsval :=
  LatLngObj {| lat := literal "47.4953"; lng := literal "19.0645";
               alt := None |}.

(** [14] *)
Definition fallback_zoom : jsval := Prim (Num (literal "14")).

(** Lines 61 to 64: the settings after the defaults are filled in. *)
Definition default_settings (settings : option Settings) : Settings :=
  let settings := match settings with Some s => s | None => no_settings end in
  let view := match defaultView settings with Some v => v | None => no_view end in
  {| selector := selector settings;
     inputElement := inputElement settings;
     mapElement := mapElement settings;
     defaultView :=
       Some {| latLng := or_else (latLng view) fallback_latLng;
               zoom := or_else (zoom view) fallback_zoom |} |}.

(** [settings.selector] where a string is expected. *)
Definition selector_text (settings : Settings) : string :=
  match selector settings with
  | Some s => s
  | None => ToString Undefined
  end.

Definition tile_url : string := "http://{s}.tile.osm.org/{z}/{x}/{y}.png".

(** The double quote, which a string literal here cannot hold. *)
Definition double_quote : string := String (ascii_of_nat 34) EmptyString.

Definition tile_attribution : string :=
  "&copy; <a href=" ++ double_quote ++ "http://osm.org/copyright"
  ++ double_quote
  ++ ">OpenStreetMap</a> contributors".

(** [settings.defaultView], once it holds an object. *)
Definition default_view (settings : Settings) : DefaultView :=
  match defaultView settings with Some v => v | None => no_view end.

(** [settings.inputElement || document.getElementById(settings.selector)] *)
Definition find_input (settings : Settings) (document : Document)
  : option InputElement :=
  match inputElement settings with
  | Some e => Some e
  | None => document (selector_text settings)
  end.

(** The element given for the map, or else a new [div] named after the
    selector (and inserted after the input, which the model leaves out). *)
Definition map_element (settings : Settings) : DivElement :=
  match mapElement settings with
  | Some e => e
  | None => {| elem_id := selector_text settings ++ "-osm-picker";
               elem_style := "height:300px;cursor:crosshair;" |}
  end.

(** [_initialize()], the body of the constructor.  An input element that
    cannot be found is [null], and the first use of it is a [TypeError].  A
    constructor that throws leaves no instance. *)
Definition _initialize (settings : option Settings) (document : Document)
  : completion Picker :=
  let settings := default_settings settings in
  let view := default_view settings in
  match find_input settings document with
  | None => Throw TypeError
  | Some input =>
      let element := map_element settings in
      let start :=
        {| _inputElement := input; _mapElement := element;
           _map := L_map element; _marker := None; lastId := 0;
           setMarker_calls := [] |} in
      let body :=
        L_tileLayer_addTo tile_url tile_attribution ;;;
        inputLatLng <- _getLatLngFromInput ;;
        Map_setView (or_else inputLatLng (latLng view)) (zoom view) ;;;
        if truthy inputLatLng then _setMarker inputLatLng else ret tt in
      match body start with
      | (Normal _, p) => Normal p
      | (Throw e, _) => Throw e
      end
  end.

(** [new OsmPicker(settings)] *)
Definition OsmPicker (settings : option Settings) (document : Document)
  : completion Picker :=
  _initialize settings document.

(** *** Events *)

(** What can happen to an instance: a click on the map at a coordinate, the
    user replacing the text of the input (which raises [change]), and a call
    of the public method. *)
Inductive event : Type :=
| MapClick (latlng : LatLng)
| InputChange (text : string)
| SetInputFromLatLng (latLng : jsval).

Definition handle (e : event) : M unit :=
  match e with
  | MapClick c => on_click c
  | InputChange text => modify (set_value text) ;;; on_change
  | SetInputFromLatLng v => setInputFromLatLng v
  end.

(** The state an event leaves, whether its handler threw or not. *)
Definition step (p : Picker) (e : event) : Picker := snd (handle e p).

(** The states of an instance: the one construction leaves, and those
    events lead to. *)
Inductive reachable : Picker -> Prop :=
| reachable_new settings document p :
    OsmPicker settings document = Normal p -> reachable p
| reachable_step p e :
    reachable p -> reachable (step p e).

(** ** What is observed *)

(** The positions of the markers shown on the picker's map. *)
Definition displayed (p : Picker) : list LatLng :=
  map snd (marker_layers (_layers (_map p))).

(** The marker state of the specification. *)
Inductive MarkerState : Type :=
| NoMarker
| MarkerAt (c : LatLng)
| SeveralMarkers.

Definition marker_state (p : Picker) : MarkerState :=
  match displayed p with
  | [] => NoMarker
  | [c] => MarkerAt c
  | _ => SeveralMarkers
  end.

(** The map view: centre and zoom. *)
Definition view (p : Picker) : option LatLng * jsval :=
  (_lastCenter (_map p), _zoom (_map p)).


(** ** Predicates the properties are stated with *)

(** The only marker on the map, if there is one, is the one held in
    [_marker]. *)
Definition owns_displayed (p : Picker) : Prop :=
  marker_layers (_layers (_map p)) = []
  \/ exists mk ll,
      _marker p = Some mk
      /\ _latlng mk = LatLngObj ll
      /\ marker_layers (_layers (_map p)) = [(_leaflet_id mk, ll)].

(** No layer carries an identifier beyond the counter. *)
Definition ids_stamped (p : Picker) : Prop :=
  forall l, In l (_layers (_map p)) -> fst l <= lastId p.

Definition consistent (p : Picker) : Prop :=
  owns_displayed p /\ ids_stamped p.

(** A numeric-like component of a coordinate: a number that is not [NaN],
    or a string that reads as one. *)
Definition numeric (a : prim) : bool :=
  match a with
  | Num n => negb (num_isNaN n)
  | Str s => negb (num_isNaN (StringToNumber s))
  | _ => false
  end.

(** A well-formed coordinate in one of the accepted shapes: a pair, an
    object with [lat] and [lng], an [L.LatLng] instance. *)
Definition well_formed (c : jsval) : bool :=
  match c with
  | Arr [a; b] => numeric a && numeric b
  | Obj o =>
      match prop_lat o, prop_lng o with
      | Some a, Some b => numeric a && numeric b
      | _, _ => false
      end
  | LatLngObj ll => negb (num_isNaN (lat ll)) && negb (num_isNaN (lng ll))
  | _ => false
  end.

(** Equal latitude and equal longitude. *)
Definition same_coordinate (x y : LatLng) : bool :=
  num_eqb (lat x) (lat y) && num_eqb (lng x) (lng y).


End Picker.

Arguments Normal {N A} a.
Arguments Throw {N A} e.

(** ** A number model: decimal numerals *)

(** An instance of [JsNumber] in which a number is the decimal numeral that
    denotes it: a sign, the digits before the point and the digits after it.
    It covers the numbers the examples of the specification use; exponents,
    infinities and the rounding of doubles are outside it. *)
Module DecimalNumber.

Inductive digit : Type := d0 | d1 | d2 | d3 | d4 | d5 | d6 | d7 | d8 | d9.

Inductive t : Type :=
| DNaN
| DFinite (negative : bool) (int_part frac_part : list digit).

Definition is_d0 (d : digit) : bool :=
  match d with d0 => true | _ => false end.

Definition char_of_digit (d : digit) : ascii :=
  match d with
  | d0 => "0" | d1 => "1" | d2 => "2" | d3 => "3" | d4 => "4"
  | d5 => "5" | d6 => "6" | d7 => "7" | d8 => "8" | d9 => "9"
  end%char.

Definition digit_of_char (c : ascii) : option digit :=
  (if Ascii.eqb c "0" then Some d0 else
   if Ascii.eqb c "1" then Some d1 else
   if Ascii.eqb c "2" then Some d2 else
   if Ascii.eqb c "3" then Some d3 else
   if Ascii.eqb c "4" then Some d4 else
   if Ascii.eqb c "5" then Some d5 else
   if Ascii.eqb c "6" then Some d6 else
   if Ascii.eqb c "7" then Some d7 else
   if Ascii.eqb c "8" then Some d8 else
   if Ascii.eqb c "9" then Some d9 else None)%char.

Definition digit_eqb (a b : digit) : bool :=
  Ascii.eqb (char_of_digit a) (char_of_digit b).

Fixpoint digits_eqb (a b : list digit) : bool :=
  match a, b with
  | [], [] => true
  | x :: a', y :: b' => digit_eqb x y && digits_eqb a' b'
  | _, _ => false
  end.

(** Leading zeros carry no value before the point, trailing ones none
    after it. *)
Fixpoint strip_leading (ds : list digit) : list digit :=
  match ds with
  | d :: rest => if is_d0 d then strip_leading rest else ds
  | [] => []
  end.

Fixpoint strip_trailing (ds : list digit) : list digit :=
  match ds with
  | [] => []
  | d :: rest =>
      match strip_trailing rest with
      | [] => if is_d0 d then [] else [d]
      | kept => d :: kept
      end
  end.

Definition is_zero (n : t) : bool :=
  match n with
  | DNaN => false
  | DFinite _ i f =>
      match strip_leading i, strip_trailing f with
      | [], [] => true
      | _, _ => false
      end
  end.

Definition is_nan (n : t) : bool :=
  match n with DNaN => true | DFinite _ _ _ => false end.

Fixpoint string_of_digits (ds : list digit) : string :=
  match ds with
  | [] => EmptyString
  | d :: rest => String (char_of_digit d) (string_of_digits rest)
  end.

Fixpoint digits_of_string (s : string) : option (list digit) :=
  match s with
  | EmptyString => Some []
  | String c rest =>
      match digit_of_char c, digits_of_string rest with
      | Some d, Some ds => Some (d :: ds)
      | _, _ => None
      end
  end.

(** The shortest numeral of the number: no sign on zero, one [0] before the
    point when nothing else stands there, no point without digits after
    it. *)
Definition to_string (n : t) : string :=
  match n with
  | DNaN => "NaN"
  | DFinite neg i f =>
      match strip_leading i, strip_trailing f with
      | [], [] => "0"
      | si, sf =>
          (if neg then "-" else "")
          ++ match si with [] => "0" | _ => string_of_digits si end
          ++ match sf with [] => "" | _ => String "." (string_of_digits sf) end
      end
  end.

(** The text before the first point, and the text after it if there is
    one. *)
Fixpoint split_point (s : string) : string * option string :=
  match s with
  | EmptyString => (EmptyString, None)
  | String c rest =>
      if Ascii.eqb c "."%char then (EmptyString, Some rest)
      else let (before, after) := split_point rest in (String c before, after)
  end.

(** The digits of an unsigned numeral: digits, a point, digits, with a digit
    on one side at least. *)
Definition unsigned_of_string (neg : bool) (s : string) : t :=
  let (before, after) := split_point s in
  match digits_of_string before,
        digits_of_string (match after with Some a => a | None => EmptyString end)
  with
  | Some i, Some f =>
      match i, f with
      | [], [] => DNaN
      | _, _ => DFinite neg i f
      end
  | _, _ => DNaN
  end.

(** The empty text reads as zero, a sign may come first, and what is not a
    numeral reads as [NaN]. *)
Definition of_string (s : string) : t :=
  match s with
  | EmptyString => DFinite false [] []
  | String c rest =>
      if Ascii.eqb c "-"%char then unsigned_of_string true rest
      else if Ascii.eqb c "+"%char then unsigned_of_string false rest
      else unsigned_of_string false s
  end.

(** Equal numbers: neither is [NaN], the digits that carry value agree, and
    so do the signs unless both are zero. *)
Definition eqb (a b : t) : bool :=
  match a, b with
  | DFinite na ia fa, DFinite nb ib fb =>
      digits_eqb (strip_leading ia) (strip_leading ib)
      && digits_eqb (strip_trailing fa) (strip_trailing fb)
      && (Bool.eqb na nb || is_zero a)
  | _, _ => false
  end.

End DecimalNumber.

Definition decimal_number : JsNumber :=
  {| number := DecimalNumber.t;
     NaN := DecimalNumber.DNaN;
     num_isNaN := DecimalNumber.is_nan;
     num_isZero := DecimalNumber.is_zero;
     NumberToString := DecimalNumber.to_string;
     StringToNumber := DecimalNumber.of_string;
     num_eqb := DecimalNumber.eqb |}.

(** ** The scenarios of the specification, over decimal numerals *)

Module Scenario.

#[local] Existing Instance decimal_number.

(** A document with one input, [<input id=location value=text>]. *)
Definition document (text : string) : Document :=
  fun i => if String.eqb i "location" then Some (mkInput text) else None.

(** [{selector: 'location'}] *)
Definition by_selector : option Settings :=
  Some {| selector := Some "location"; inputElement := None;
          mapElement := None; defaultView := None |}.

(** [{selector: 'location', defaultView: {latLng: l, zoom: z}}] *)
Definition configured (l z : jsval) : option Settings :=
  Some {| selector := Some "location"; inputElement := None;
          mapElement := None;
          defaultView := Some {| latLng := l; zoom := z |} |}.

Definition coordinate (la lo : string) : LatLng :=
  {| lat := literal la; lng := literal lo; alt := None |}.

Definition number_of (s : string) : jsval := Prim (Num (literal s)).

(** The instance a construction yields, if it yields one. *)
Definition constructed (c : completion Picker) : Picker :=
  match c with
  | Normal p => p
  | Throw _ =>
      mkPicker (mkInput "") (mkDiv "" "") (L_map (mkDiv "" "")) None 0 []
  end.

(** A picker over an empty input, and one over an input that holds a
    coordinate. *)
Definition blank : Picker := constructed (OsmPicker by_selector (document "")).

Definition marked : Picker :=
  constructed (OsmPicker by_selector (document "1.5,-2.5")).

End Scenario.

(** ** The rest of the file *)

Section PickerExtension.

Context {N : JsNumber}.

(** *** A sequence of events *)

(** The state after the events of a list, first to last. *)
Definition run (p : Picker) (events : list event) : Picker :=
  fold_left step events p.

(** *** The tile layer *)

(** The layer line 81 adds: the first object Leaflet stamps. *)
Definition osm_tiles : nat * Layer := (1, TileLayer tile_url tile_attribution).

(** The tile layer is on the map, every other layer is a marker, and the
    marker held in [_marker] was stamped after the tile layer. *)
Definition tiled (p : Picker) : Prop :=
  In osm_tiles (_layers (_map p))
  /\ (forall l, In l (_layers (_map p)) ->
                l = osm_tiles \/ exists i ll, l = (i, MarkerLayer ll))
  /\ 1 <= lastId p
  /\ (forall held, _marker p = Some held -> 1 < _leaflet_id held).

(** *** [_insertAfter] *)

(** The children of one parent node, in document order; a node is known
    by a number, as an object is by its identity. *)
Definition NodeList : Type := list nat.

(** [node.nextSibling] among the children of its parent: [null] for the
    last child. *)
Fixpoint nextSibling (node : nat) (children : NodeList) : option nat :=
  match children with
  | [] => None
  | c :: rest =>
      if Nat.eqb c node then hd_error rest else nextSibling node rest
  end.

(** A node taken out of the list. *)
Definition detach (node : nat) (children : NodeList) : NodeList :=
  filter (fun c => negb (Nat.eqb c node)) children.

(** A node put before a node of the list. *)
Fixpoint put_before (node reference : nat) (children : NodeList) : NodeList :=
  match children with
  | [] => [node]
  | c :: rest =>
      if Nat.eqb c reference then node :: c :: rest
      else c :: put_before node reference rest
  end.

(** What [insertBefore] can answer: the new children of the parent, or the
    [NotFoundError] of a reference child that is no child of it. *)
Inductive inserted : Type :=
| Children (children : NodeList)
| NotFoundError.

(** [parent.insertBefore(node, child)], as the DOM defines it: [child] must
    be a child of the parent or [null]; when [child] is [node] itself the
    reference becomes the next sibling of [node]; [node] leaves the place it
    had, and goes before the reference, or to the end for [null]. *)
Definition insertBefore (node : nat) (child : option nat) (children : NodeList)
  : inserted :=
  let place reference :=
    match reference with
    | Some r => put_before node r (detach node children)
    | None => (detach node children ++ [node])%list
    end in
  match child with
  | None => Children (place None)
  | Some c =>
      if existsb (Nat.eqb c) children then
        Children (place (if Nat.eqb c node then nextSibling node children
                         else Some c))
      else NotFoundError
  end.

(** [_insertAfter(newNode, referenceNode)]:
    [referenceNode.parentNode.insertBefore(newNode, referenceNode.nextSibling)].
    [siblings] is [None] for a reference node that has no parent, and else
    holds the children of that parent, the reference node among them. *)
Definition _insertAfter (newNode referenceNode : nat)
           (siblings : option NodeList) : completion inserted :=
  match siblings with
  | None => Throw TypeError
  | Some children =>
      Normal (insertBefore newNode (nextSibling referenceNode children) children)
  end.

(** *** The second revision of the constructor *)

(** [settings] as the second revision reads it: the defaults are under
    [View], and two options configure the input. *)
Record Settings2 : Type := mkSettings2 {
  View : option DefaultView;
  readOnly : jsval;
  display : jsval
}.

(** An instance of the second revision: the state of the first, and what
    the constructor wrote to the input besides: its [readOnly] attribute and,
    if it was set, [style.display]. *)
Record Picker2 : Type := mkPicker2 {
  picker : Picker;
  input_readOnly : bool;
  input_display : option jsval
}.

(** [settings.readOnly === true] *)
Definition is_true (v : jsval) : bool :=
  match v with Prim (Bool true) => true | _ => false end.

Notation "x <- m ;; k" := (bind m (fun x => k))
  (at level 61, m at next level, right associativity).
Notation "m ;;; k" := (bind m (fun _ => k))
  (at level 61, right associativity).

(** [_initialize()] of [OsmPicker(selector, settings)].  [settings] is not
    given a default: reading [View] from [undefined] is a [TypeError], and
    so is writing [readOnly] to an input that was not found. *)
Definition _initialize2 (selector : string) (settings : option Settings2)
           (document : Document) : completion Picker2 :=
  match settings with
  | None => Throw TypeError
  | Some settings =>
      let view := match View settings with Some v => v | None => no_view end in
      let view_latLng := or_else (latLng view) fallback_latLng in
      let view_zoom := or_else (zoom view) fallback_zoom in
      let read_only := is_true (readOnly settings) in
      match document selector with
      | None => Throw TypeError
      | Some input =>
          let shown :=
            if truthy (display settings) then Some (display settings)
            else None in
          let element :=
            {| elem_id := selector ++ "-osm-picker";
               elem_style := "height:300px;cursor:crosshair;" |} in
          let start :=
            {| _inputElement := input; _mapElement := element;
               _map := L_map element; _marker := None; lastId := 0;
               setMarker_calls := [] |} in
          let body :=
            L_tileLayer_addTo tile_url tile_attribution ;;;
            inputLatLng <- _getLatLngFromInput ;;
            Map_setView (or_else inputLatLng view_latLng) view_zoom ;;;
            if truthy inputLatLng then _setMarker inputLatLng else ret tt in
          match body start with
          | (Normal _, p) =>
              Normal {| picker := p; input_readOnly := read_only;
                        input_display := shown |}
          | (Throw e, _) => Throw e
          end
      end
  end.

(** [new OsmPicker(selector, settings)] *)
Definition OsmPicker2 (selector : string) (settings : option Settings2)
           (document : Document) : completion Picker2 :=
  _initialize2 selector settings document.

(** The settings of the first revision that say the same. *)
Definition as_first_revision (selector : string) (settings : Settings2)
  : option Settings :=
  Some {| selector := Some selector; inputElement := None;
          mapElement := None; defaultView := View settings |}.

End PickerExtension.

(** * Properties *)

(** ** Splitting at commas *)

Lemma split_not_nil (s : string) : JsString.split s <> [].
Proof.
  destruct s as [|c s]; simpl; [discriminate|].
  destruct (Ascii.eqb c JsString.comma); [discriminate|].
  destruct (JsString.split s); discriminate.
Qed.

Lemma split_no_comma (s : string) :
  JsString.no_comma s = true -> JsString.split s = [s].
Proof.
  induction s as [|c s IH]; simpl; intros H; [reflexivity|].
  apply andb_true_iff in H as [Hc Hs].
  apply negb_true_iff in Hc. rewrite Hc, (IH Hs). reflexivity.
Qed.

Lemma split_at_comma (s1 s2 : string) :
  JsString.no_comma s1 = true ->
  JsString.split (s1 ++ "," ++ s2) = s1 :: JsString.split s2.
Proof.
  induction s1 as [|c s IH]; simpl; intros H; [reflexivity|].
  apply andb_true_iff in H as [Hc Hs].
  apply negb_true_iff in Hc. rewrite Hc.
  simpl in IH. rewrite (IH Hs). reflexivity.
Qed.

Lemma no_comma_app (s1 s2 : string) :
  JsString.no_comma (s1 ++ s2)
  = JsString.no_comma s1 && JsString.no_comma s2.
Proof.
  induction s1 as [|c s IH]; simpl; [reflexivity|].
  rewrite IH. apply andb_assoc.
Qed.

Lemma comma_not_empty (s1 s2 : string) :
  JsString.is_empty (s1 ++ "," ++ s2) = false.
Proof. destruct s1; reflexivity. Qed.

Lemma split_comma_has_two (s : string) :
  JsString.no_comma s = false ->
  exists a b rest, JsString.split s = a :: b :: rest.
Proof.
  induction s as [|c s IH]; simpl; [discriminate|].
  destruct (Ascii.eqb c JsString.comma) eqn:Hc; simpl; intros H.
  - destruct (JsString.split s) as [|b rest] eqn:Hs.
    + now apply split_not_nil in Hs.
    + now exists EmptyString, b, rest.
  - destruct (IH H) as (a & b & rest & ->). now exists (String c a), b, rest.
Qed.

Section PickerProperties.

Context {N : JsNumber}.

(** ** Marker layers *)

Lemma marker_layers_app (l1 l2 : list (nat * Layer)) :
  marker_layers (l1 ++ l2) = (marker_layers l1 ++ marker_layers l2)%list.
Proof.
  induction l1 as [|[i [u a|ll]] l1 IH]; simpl; [reflexivity|exact IH|].
  now rewrite IH.
Qed.

Lemma marker_layers_filter (i : nat) (ls : list (nat * Layer)) :
  marker_layers (filter (fun l => negb (Nat.eqb (fst l) i)) ls)
  = filter (fun l => negb (Nat.eqb (fst l) i)) (marker_layers ls).
Proof.
  induction ls as [|[j [u a|ll]] ls IH]; simpl; [reflexivity| |].
  - destruct (Nat.eqb j i); simpl; exact IH.
  - destruct (Nat.eqb j i); simpl; now rewrite IH.
Qed.

Lemma hasLayer_stamped (i : nat) (m : Map) :
  (forall l, In l (_layers m) -> fst l < i) -> hasLayer i m = false.
Proof.
  intros H. unfold hasLayer.
  destruct (existsb _ _) eqn:E; [|reflexivity].
  apply existsb_exists in E as (l & Hin & Heq).
  apply Nat.eqb_eq in Heq. specialize (H l Hin). lia.
Qed.

(** ** The functions of the picker, run *)

Lemma L_latLng_of_string (s : string) (b c : jsval) :
  L_latLng (Prim (Str s)) b c
  = if is_undefined b then Normal null else LatLng_new (Prim (Str s)) b c.
Proof. reflexivity. Qed.


(** Reading the input changes nothing. *)
Lemma getLatLngFromInput_state (p : Picker) :
  snd (_getLatLngFromInput p) = p.
Proof.
  unfold _getLatLngFromInput, bind, gets, lift, ret.
  destruct (negb _); reflexivity.
Qed.


(** Text without a comma is one argument for [L.latLng], which then
    answers [null]. *)
Lemma getLatLngFromInput_no_comma (p : Picker) :
  JsString.no_comma (value (_inputElement p)) = true ->
  _getLatLngFromInput p = (Normal null, p).
Proof.
  intros H. unfold _getLatLngFromInput, bind, gets, lift, ret.
  destruct (negb _); [|reflexivity].
  now rewrite (split_no_comma _ H).
Qed.

(** Text with a comma hands its first two pieces to the constructor. *)
Lemma getLatLngFromInput_pieces (p : Picker) (a b : string) (rest : list string) :
  JsString.split (value (_inputElement p)) = a :: b :: rest ->
  JsString.is_empty (value (_inputElement p)) = false ->
  _getLatLngFromInput p
  = (LatLng_new (Prim (Str a)) (Prim (Str b)) (argument 2 (a :: b :: rest)), p).
Proof.
  intros Hs He. unfold _getLatLngFromInput, bind, gets, lift.
  now rewrite He, Hs.
Qed.

(** [_setMarker], step by step: the call is recorded, the held marker
    leaves the map, the position is converted, a new marker is stamped and,
    if it has a position, added and kept. *)
Lemma setMarker_run (v : jsval) (p : Picker) :
  _setMarker v p =
  let m1 := match _marker p with
            | Some old => remove_layer (_leaflet_id old) (_map p)
            | None => _map p
            end in
  let calls := (setMarker_calls p ++ [v])%list in
  let i := S (lastId p) in
  match L_latLng v undefined undefined with
  | Throw e =>
      (Throw e,
       mkPicker (_inputElement p) (_mapElement p) m1 (_marker p) (lastId p) calls)
  | Normal pos =>
      if hasLayer i m1 then
        (Normal tt,
         mkPicker (_inputElement p) (_mapElement p) m1
                  (Some (mkMarker i pos)) i calls)
      else
        match pos with
        | LatLngObj ll =>
            (Normal tt,
             mkPicker (_inputElement p) (_mapElement p)
                      (add_layer (i, MarkerLayer ll) m1)
                      (Some (mkMarker i pos)) i calls)
        | _ =>
            (Throw TypeError,
             mkPicker (_inputElement p) (_mapElement p) m1 (_marker p) i calls)
        end
  end.
Proof.
  unfold _setMarker, L_marker, Marker_addTo, Map_removeLayer, fresh_id,
    bind, modify, gets, lift, ret, throw.
  destruct p as [inp mel m [old|] n calls]; simpl;
    destruct (L_latLng v undefined undefined) as [pos|e]; simpl;
    try reflexivity;
    (destruct (hasLayer _ _); simpl; [reflexivity|]);
    destruct pos; reflexivity.
Qed.

(** ** Consistency of the marker with the map *)

(** The map once [_setMarker] has removed the held marker. *)
Lemma held_marker_removed (p : Picker) :
  owns_displayed p ->
  marker_layers
    (_layers match _marker p with
             | Some old => remove_layer (_leaflet_id old) (_map p)
             | None => _map p
             end) = [].
Proof.
  intros [H|(mk & ll & Hm & _ & H)].
  - destruct (_marker p); simpl; [|exact H].
    now rewrite marker_layers_filter, H.
  - rewrite Hm. simpl. rewrite marker_layers_filter, H. simpl.
    now rewrite Nat.eqb_refl.
Qed.

Lemma held_marker_removed_stamped (p : Picker) :
  ids_stamped p ->
  forall l,
    In l (_layers match _marker p with
                  | Some old => remove_layer (_leaflet_id old) (_map p)
                  | None => _map p
                  end) ->
    fst l <= lastId p.
Proof.
  intros H l Hin. apply H.
  destruct (_marker p); simpl in Hin; [|exact Hin].
  now apply filter_In in Hin.
Qed.

(** What [_setMarker] does to a consistent state: the text and the view
    stay, the call is recorded, and the map shows the new marker alone, or
    no marker when the argument gives no position. *)
Lemma setMarker_consistent (v : jsval) (p : Picker) :
  consistent p ->
  consistent (snd (_setMarker v p))
  /\ view (snd (_setMarker v p)) = view p
  /\ value (_inputElement (snd (_setMarker v p))) = value (_inputElement p)
  /\ setMarker_calls (snd (_setMarker v p)) = (setMarker_calls p ++ [v])%list
  /\ match L_latLng v undefined undefined with
     | Normal (LatLngObj ll) =>
         fst (_setMarker v p) = Normal tt
         /\ displayed (snd (_setMarker v p)) = [ll]
         /\ _marker (snd (_setMarker v p))
            = Some (mkMarker (S (lastId p)) (LatLngObj ll))
         /\ marker_layers (_layers (_map (snd (_setMarker v p))))
            = [(S (lastId p), ll)]
         /\ lastId (snd (_setMarker v p)) = S (lastId p)
     | Normal _ =>
         fst (_setMarker v p) = Throw TypeError
         /\ displayed (snd (_setMarker v p)) = []
     | Throw e =>
         fst (_setMarker v p) = Throw e
         /\ displayed (snd (_setMarker v p)) = []
     end.
Proof.
  intros [Hown Hids].
  pose proof (held_marker_removed p Hown) as Hrem.
  pose proof (held_marker_removed_stamped p Hids) as Hst.
  rewrite setMarker_run. cbv zeta.
  set (m1 := match _marker p with
             | Some old => remove_layer (_leaflet_id old) (_map p)
             | None => _map p
             end) in *.
  assert (Hview : (_lastCenter m1, _zoom m1) = view p).
  { unfold m1, view. destruct (_marker p); reflexivity. }
  assert (Hfresh : hasLayer (S (lastId p)) m1 = false).
  { apply hasLayer_stamped. intros l Hin. specialize (Hst l Hin). lia. }
  assert (Hkeep : forall mk i, consistent
            (mkPicker (_inputElement p) (_mapElement p) m1 mk
                      i (setMarker_calls p ++ [v])%list) \/ i < lastId p).
  { intros mk i. destruct (Nat.lt_ge_cases i (lastId p)) as [Hlt|Hge];
      [now right|left].
    split; [left; exact Hrem|].
    intros l Hin. simpl in *. specialize (Hst l Hin). lia. }
  destruct (L_latLng v undefined undefined) as [pos|e].
  - rewrite Hfresh.
    destruct pos as [q|l|ll|o]; simpl;
      try (destruct (Hkeep (_marker p) (S (lastId p))) as [Hc|Hc]; [|lia];
           repeat split; try exact Hview; try apply Hc;
           unfold displayed; simpl; now rewrite Hrem).
    repeat split; try exact Hview.
    + right. exists (mkMarker (S (lastId p)) (LatLngObj ll)), ll.
      split; [reflexivity|]. split; [reflexivity|]. simpl. rewrite marker_layers_app, Hrem.
      reflexivity.
    + intros l Hin. simpl in Hin. apply in_app_or in Hin as [Hin|[<-|[]]].
      * specialize (Hst l Hin). simpl. lia.
      * simpl. lia.
    + unfold displayed. simpl. now rewrite marker_layers_app, Hrem.
    + simpl. now rewrite marker_layers_app, Hrem.
  - simpl. destruct (Hkeep (_marker p) (lastId p)) as [Hc|Hc]; [|lia].
    repeat split; try exact Hview; try apply Hc.
    unfold displayed. simpl. now rewrite Hrem.
Qed.

Lemma consistent_same_layers (p q : Picker) :
  _layers (_map q) = _layers (_map p) ->
  _marker q = _marker p ->
  lastId q = lastId p ->
  consistent p -> consistent q.
Proof.
  intros Hl Hm Hi [Hown Hids]. split.
  - unfold owns_displayed in *. now rewrite Hl, Hm.
  - unfold ids_stamped in *. now rewrite Hl, Hi.
Qed.

Lemma setView_run (c z : jsval) (p : Picker) :
  Map_setView c z p =
  match L_latLng c undefined undefined with
  | Normal (LatLngObj ll) =>
      (Normal tt,
       set_map (set_view ll (if is_undefined z then _zoom (_map p) else z)
                         (_map p)) p)
  | Normal _ => (Throw TypeError, p)
  | Throw e => (Throw e, p)
  end.
Proof.
  unfold Map_setView, bind, lift, modify, throw.
  destruct (L_latLng c undefined undefined) as [[q|l|ll|o]|e]; reflexivity.
Qed.

Lemma setView_consistent (c z : jsval) (p : Picker) :
  consistent p -> consistent (snd (Map_setView c z p)).
Proof.
  intros H. rewrite setView_run.
  destruct (L_latLng c undefined undefined) as [[q|l|ll|o]|e]; exact H.
Qed.

Lemma setView_value (c z : jsval) (p : Picker) :
  value (_inputElement (snd (Map_setView c z p))) = value (_inputElement p).
Proof.
  rewrite setView_run.
  destruct (L_latLng c undefined undefined) as [[q|l|ll|o]|e]; reflexivity.
Qed.

Lemma set_value_consistent (s : string) (p : Picker) :
  consistent p -> consistent (set_value s p).
Proof. now apply consistent_same_layers. Qed.

(** A computation followed by [_setMarker] leaves a consistent state if the
    computation does. *)
Lemma bind_setMarker_consistent (A : Type) (m : M A) (f : A -> jsval) (p : Picker) :
  consistent (snd (m p)) ->
  consistent (snd (bind m (fun a => _setMarker (f a)) p)).
Proof.
  intros H. unfold bind. destruct (m p) as [[a|e] q]; simpl in *.
  - now apply setMarker_consistent.
  - exact H.
Qed.

Lemma step_consistent (p : Picker) (e : event) :
  consistent p -> consistent (step p e).
Proof.
  intros H. unfold step. destruct e as [c|text|v]; simpl.
  - unfold on_click.
    apply (bind_setMarker_consistent unit _ (fun _ => LatLngObj c)).
    now apply set_value_consistent.
  - unfold on_change, bind at 1, modify.
    apply (bind_setMarker_consistent jsval _ (fun a => a)).
    rewrite getLatLngFromInput_state. now apply set_value_consistent.
  - unfold setInputFromLatLng, bind at 1, lift.
    destruct (coordinate_text v) as [text|e]; [|exact H].
    unfold bind at 1, modify.
    apply (bind_setMarker_consistent unit _ (fun _ => v)).
    apply setView_consistent. now apply set_value_consistent.
Qed.

(** Construction, run: the state before the marker is placed. *)
Lemma initialize_run (settings : option Settings) (document : Document) :
  _initialize settings document =
  let s := default_settings settings in
  match find_input s document with
  | None => Throw TypeError
  | Some input =>
      let start :=
        mkPicker input (map_element s)
                 (add_layer (1, TileLayer tile_url tile_attribution)
                            (L_map (map_element s)))
                 None 1 [] in
      match _getLatLngFromInput start with
      | (Normal parsed, _) =>
          match Map_setView (or_else parsed (latLng (default_view s)))
                            (zoom (default_view s)) start with
          | (Normal _, viewed) =>
              if truthy parsed then
                match _setMarker parsed viewed with
                | (Normal _, p) => Normal p
                | (Throw e, _) => Throw e
                end
              else Normal viewed
          | (Throw e, _) => Throw e
          end
      | (Throw e, _) => Throw e
      end
  end.
Proof.
  unfold _initialize. cbv zeta.
  destruct (find_input (default_settings settings) document) as [input|];
    [|reflexivity].
  unfold bind at 1, L_tileLayer_addTo, bind at 1, fresh_id, modify.
  cbv beta iota. unfold set_lastId, set_map. cbn [lastId _map _inputElement _mapElement _marker setMarker_calls].
  set (start := mkPicker _ _ _ _ _ _).
  unfold bind at 1.
  pose proof (getLatLngFromInput_state start) as Hs.
  destruct (_getLatLngFromInput start) as [[parsed|e] q]; simpl in Hs;
    subst q; [|reflexivity].
  unfold bind at 1.
  destruct (Map_setView _ _ start) as [[u|e] viewed]; [|reflexivity].
  destruct (truthy parsed); [|reflexivity].
  destruct (_setMarker parsed viewed) as [[u'|e] p]; reflexivity.
Qed.

Lemma OsmPicker_consistent (settings : option Settings) (document : Document)
      (p : Picker) :
  OsmPicker settings document = Normal p -> consistent p.
Proof.
  unfold OsmPicker. rewrite initialize_run. cbv zeta.
  destruct (find_input _ _) as [input|]; [|discriminate].
  set (start := mkPicker _ _ _ _ _ _).
  assert (Hstart : consistent start).
  { split; [now left|]. intros l [<-|[]]. simpl. lia. }
  destruct (_getLatLngFromInput start) as [[parsed|e] q]; [|discriminate].
  pose proof (setView_consistent
                (or_else parsed (latLng (default_view (default_settings settings))))
                (zoom (default_view (default_settings settings)))
                start Hstart) as Hv.
  destruct (Map_setView _ _ start) as [[u|e] viewed]; [|discriminate].
  simpl in Hv. destruct (truthy parsed).
  - pose proof (setMarker_consistent parsed viewed Hv) as [Hc _].
    destruct (_setMarker parsed viewed) as [[u'|e] r]; [|discriminate].
    intros [= <-]. exact Hc.
  - intros [= <-]. exact Hv.
Qed.

Lemma reachable_consistent (p : Picker) : reachable p -> consistent p.
Proof.
  induction 1 as [settings document p H|p e _ IH].
  - exact (OsmPicker_consistent _ _ _ H).
  - now apply step_consistent.
Qed.

(** [_setMarker] never touches the text or the view. *)
Lemma setMarker_keeps_text_and_view (v : jsval) (p : Picker) :
  value (_inputElement (snd (_setMarker v p))) = value (_inputElement p)
  /\ view (snd (_setMarker v p)) = view p
  /\ setMarker_calls (snd (_setMarker v p)) = (setMarker_calls p ++ [v])%list.
Proof.
  rewrite setMarker_run. cbv zeta.
  assert (Hview : (_lastCenter match _marker p with
                               | Some old => remove_layer (_leaflet_id old) (_map p)
                               | None => _map p
                               end,
                   _zoom match _marker p with
                         | Some old => remove_layer (_leaflet_id old) (_map p)
                         | None => _map p
                         end) = view p).
  { unfold view. destruct (_marker p); reflexivity. }
  destruct (L_latLng v undefined undefined) as [pos|e]; [|now repeat split].
  destruct (hasLayer _ _); [now repeat split|].
  destruct pos; now repeat split.
Qed.

(** ** The marker invariant *)



(** ** Clicks *)

Lemma click_run (p : Picker) (c : LatLng) :
  handle (MapClick c) p
  = _setMarker (LatLngObj c)
               (set_value (NumberToString (lat c) ++ "," ++ NumberToString (lng c)) p).
Proof. reflexivity. Qed.

Lemma change_run (p : Picker) (text : string) :
  handle (InputChange text) p
  = match _getLatLngFromInput (set_value text p) with
    | (Normal parsed, _) => _setMarker parsed (set_value text p)
    | (Throw e, _) => (Throw e, set_value text p)
    end.
Proof.
  unfold handle, on_change, bind, modify.
  pose proof (getLatLngFromInput_state (set_value text p)) as Hs.
  destruct (_getLatLngFromInput (set_value text p)) as [[parsed|e] q];
    simpl in Hs; now subst q.
Qed.

Lemma setInputFromLatLng_run (p : Picker) (v : jsval) :
  handle (SetInputFromLatLng v) p
  = match coordinate_text v with
    | Normal text =>
        match Map_setView v undefined (set_value text p) with
        | (Normal _, viewed) => _setMarker v viewed
        | (Throw e, q) => (Throw e, q)
        end
    | Throw e => (Throw e, p)
    end.
Proof.
  unfold handle, setInputFromLatLng, bind, lift, modify.
  destruct (coordinate_text v) as [text|e]; [|reflexivity].
  now destruct (Map_setView v undefined (set_value text p)) as [[u|e] q].
Qed.


(** ** Parsing the input *)

(** The constructor applied to two numeric texts. *)
Lemma LatLng_new_numeric (s1 s2 : string) :
  num_isNaN (StringToNumber s1) = false ->
  num_isNaN (StringToNumber s2) = false ->
  LatLng_new (Prim (Str s1)) (Prim (Str s2)) undefined
  = Normal (LatLngObj {| lat := StringToNumber s1;
                         lng := StringToNumber s2;
                         alt := None |}).
Proof.
  intros H1 H2. unfold LatLng_new, isNaN. simpl. now rewrite H1, H2.
Qed.

Lemma getLatLngFromInput_two_numeric (p : Picker) (s1 s2 : string) :
  JsString.no_comma s1 = true ->
  JsString.no_comma s2 = true ->
  num_isNaN (StringToNumber s1) = false ->
  num_isNaN (StringToNumber s2) = false ->
  value (_inputElement p) = s1 ++ "," ++ s2 ->
  JsString.split (value (_inputElement p)) = [s1; s2]
  /\ _getLatLngFromInput p
     = (Normal (LatLngObj {| lat := StringToNumber s1;
                             lng := StringToNumber s2;
                             alt := None |}), p).
Proof.
  intros Hc1 Hc2 Hn1 Hn2 Hv.
  assert (Hs : JsString.split (value (_inputElement p)) = [s1; s2]).
  { rewrite Hv, (split_at_comma _ _ Hc1). now rewrite (split_no_comma _ Hc2). }
  split; [exact Hs|].
  rewrite (getLatLngFromInput_pieces p s1 s2 [] Hs).
  - change (argument 2 [s1; s2]) with undefined.
    now rewrite (LatLng_new_numeric _ _ Hn1 Hn2).
  - rewrite Hv. apply comma_not_empty.
Qed.

(** C3: when the text of the input is two numeric components around one
    comma, [split] yields exactly these two components and
    [_getLatLngFromInput] returns the coordinate whose latitude and
    longitude are their numeric values. *)
Theorem parse_two_numeric_components (p : Picker) (s1 s2 : string) :
  JsString.no_comma s1 = true ->
  JsString.no_comma s2 = true ->
  num_isNaN (StringToNumber s1) = false ->
  num_isNaN (StringToNumber s2) = false ->
  value (_inputElement p) = s1 ++ "," ++ s2 ->
  JsString.split (value (_inputElement p)) = [s1; s2]
  /\ _getLatLngFromInput p
     = (Normal (LatLngObj {| lat := StringToNumber s1;
                             lng := StringToNumber s2;
                             alt := None |}), p).
Proof.
  intros Hc1 Hc2 Hn1 Hn2 Hv.
  destruct (getLatLngFromInput_two_numeric p s1 s2 Hc1 Hc2 Hn1 Hn2 Hv)
    as [Hsplit Hparse].
  split; [exact Hsplit|exact Hparse].
Qed.

(** ** Construction *)



(** C10: the defaults are applied by a test of truthiness.  A configured
    zoom or coordinate that is falsy, such as the zoom [0], gives the same
    settings and the same picker as one that is left out, with [14] and
    [(47.4953, 19.0645)] in its place. *)
Theorem falsy_defaults_are_replaced
        (sel : option string) (inp : option InputElement)
        (mel : option DivElement) (l z : jsval) (document : Document) :
  let given :=
    Some (mkSettings sel inp mel (Some {| latLng := l; zoom := z |})) in
  let omitted :=
    Some (mkSettings sel inp mel
            (Some {| latLng := if truthy l then l else undefined;
                     zoom := if truthy z then z else undefined |})) in
  default_settings given = default_settings omitted
  /\ OsmPicker given document = OsmPicker omitted document
  /\ zoom (default_view (default_settings given))
     = (if truthy z then z else fallback_zoom)
  /\ latLng (default_view (default_settings given))
     = (if truthy l then l else fallback_latLng)
  /\ (forall n, num_isZero n = true -> truthy (Prim (Num n)) = false).
Proof.
  intros given omitted.
  assert (H : default_settings given = default_settings omitted).
  { unfold default_settings, given, omitted, or_else. simpl.
    destruct (truthy l) eqn:Hl, (truthy z) eqn:Hz; simpl;
      rewrite ?Hl, ?Hz; reflexivity. }
  repeat split.
  - exact H.
  - unfold OsmPicker. rewrite !initialize_run. cbv zeta. now rewrite H.
  - intros n Hn. simpl. rewrite Hn. now rewrite orb_true_r.
Qed.

(** ** Setting the picker from a coordinate *)


Lemma numeric_not_object (a : prim) :
  numeric a = true ->
  typeof_object a = false /\ join_element a = ToString a
  /\ isNaN (Prim a) = false.
Proof.
  destruct a; simpl; try discriminate; intros H;
    apply negb_true_iff in H; now repeat split.
Qed.


(** ** Input changes *)


(** The listener on text that [_getLatLngFromInput] answers with [null]. *)
Lemma change_null_run (p : Picker) (text : string) :
  JsString.no_comma text = true ->
  handle (InputChange text) p = _setMarker null (set_value text p).
Proof.
  intros H. rewrite change_run.
  now rewrite getLatLngFromInput_no_comma by exact H.
Qed.

(** Text with a comma never parses to [null]: the constructor is
    called, and returns a coordinate or throws. *)
Lemma getLatLngFromInput_with_comma (p : Picker) (text : string) :
  JsString.no_comma text = false ->
  fst (_getLatLngFromInput (set_value text p)) <> Normal null.
Proof.
  intros H.
  destruct (split_comma_has_two text H) as (a & b & rest & Hs).
  assert (He : JsString.is_empty text = false).
  { destruct text; [discriminate|reflexivity]. }
  rewrite (getLatLngFromInput_pieces (set_value text p) a b rest Hs He).
  unfold LatLng_new. destruct (isNaN _ || isNaN _); discriminate.
Qed.


(** Two components that are not numbers make the constructor throw before
    [_setMarker] is reached: the state is the one the edit left. *)
Lemma change_not_numeric_keeps_marker (p : Picker) (s1 s2 : string) :
  JsString.no_comma s1 = true ->
  JsString.no_comma s2 = true ->
  num_isNaN (StringToNumber s1) = true ->
  step p (InputChange (s1 ++ "," ++ s2)) = set_value (s1 ++ "," ++ s2) p.
Proof.
  intros H1 H2 Hn. unfold step. rewrite change_run.
  assert (Hs : JsString.split (s1 ++ "," ++ s2) = [s1; s2]).
  { rewrite (split_at_comma _ _ H1). now rewrite (split_no_comma _ H2). }
  rewrite (getLatLngFromInput_pieces (set_value (s1 ++ "," ++ s2) p)
             s1 s2 [] Hs (comma_not_empty s1 s2)).
  unfold LatLng_new, isNaN. simpl. now rewrite Hn.
Qed.

(** ** The arguments of [_setMarker] *)

(** C9, at the failing input: the listener of [change] passes whatever
    [_getLatLngFromInput] returns; on an empty input that is [null], and
    the call is made all the same. *)
Theorem change_listener_passes_null (p : Picker) :
  setMarker_calls (step p (InputChange ""))
  = (setMarker_calls p ++ [null])%list
  /\ In null (setMarker_calls (step p (InputChange ""))).
Proof.
  assert (H : setMarker_calls (step p (InputChange ""))
              = (setMarker_calls p ++ [null])%list).
  { unfold step. rewrite (change_null_run p "" eq_refl).
    now destruct (setMarker_keeps_text_and_view null (set_value "" p))
      as (_ & _ & ->). }
  split; [exact H|]. rewrite H. apply in_or_app. right. now left.
Qed.

(** Construction, which tests the parsed value first, makes no such call. *)
Lemma construction_never_passes_null
      (settings : option Settings) (document : Document) (p : Picker) :
  OsmPicker settings document = Normal p ->
  forall v, In v (setMarker_calls p) -> truthy v = true.
Proof.
  unfold OsmPicker. rewrite initialize_run. cbv zeta.
  destruct (find_input _ _) as [input|]; [|discriminate].
  set (start := mkPicker _ _ _ _ _ _).
  destruct (_getLatLngFromInput start) as [[parsed|e] q]; [|discriminate].
  rewrite setView_run.
  destruct (L_latLng _ undefined undefined) as [[x|x|x|x]|e];
    try discriminate.
  set (viewed := set_map _ _).
  destruct (truthy parsed) eqn:Htruthy.
  - pose proof (setMarker_keeps_text_and_view parsed viewed) as (_ & _ & Hc).
    destruct (_setMarker parsed viewed) as [[u|e] r]; [|discriminate].
    intros [= <-] v Hin. simpl in Hc. rewrite Hc in Hin.
    destruct Hin as [<-|[]]. exact Htruthy.
  - intros [= <-] v [].
Qed.

(** With a marker or without, the listener then fails in Leaflet. *)
Lemma change_on_empty_input_throws (p : Picker) :
  reachable p -> fst (handle (InputChange "") p) = Throw TypeError.
Proof.
  intros Hr. apply reachable_consistent in Hr.
  rewrite (change_null_run p "" eq_refl).
  assert (Hq : consistent (set_value "" p)) by exact Hr.
  now destruct (setMarker_consistent null _ Hq) as (_ & _ & _ & _ & H & _).
Qed.

(** ** Round trip through the text *)

(** The text [setInputFromLatLng] computes is in the input afterwards,
    whatever became of the view and the marker. *)
Lemma setInputFromLatLng_text (p : Picker) (v : jsval) (text : string) :
  coordinate_text v = Normal text ->
  value (_inputElement (step p (SetInputFromLatLng v))) = text.
Proof.
  intros Ht. unfold step. rewrite setInputFromLatLng_run, Ht.
  pose proof (setView_value v undefined (set_value text p)) as Hv.
  destruct (Map_setView v undefined (set_value text p)) as [[u|e] q];
    simpl in Hv; [|exact Hv].
  now destruct (setMarker_keeps_text_and_view v q) as (-> & _).
Qed.

(** A numeric component prints without a comma and reads back equal. *)
Lemma numeric_reads_back (L : JsNumberLaws N) (a : prim) :
  numeric a = true ->
  JsString.no_comma (ToString a) = true
  /\ num_isNaN (StringToNumber (ToString a)) = false
  /\ num_eqb (StringToNumber (ToString a)) (ToNumber_prim a) = true.
Proof.
  destruct a as [| |b|n|s]; simpl; try discriminate; intros H;
    apply negb_true_iff in H.
  - pose proof (NumberToString_roundtrip n H) as Hrt.
    split; [apply NumberToString_no_comma|].
    split; [exact (num_eqb_not_NaN _ _ Hrt)|exact Hrt].
  - split; [now apply numeric_no_comma|].
    split; [exact H|now apply num_eqb_refl].
Qed.

Lemma components_round_trip (L : JsNumberLaws N) (q : Picker) (a b : prim) :
  numeric a = true ->
  numeric b = true ->
  value (_inputElement q) = ToString a ++ "," ++ ToString b ->
  exists parsed,
    _getLatLngFromInput q = (Normal (LatLngObj parsed), q)
    /\ num_eqb (lat parsed) (ToNumber_prim a) = true
    /\ num_eqb (lng parsed) (ToNumber_prim b) = true.
Proof.
  intros Ha Hb Hv.
  destruct (numeric_reads_back L a Ha) as (Hca & Hna & Hea).
  destruct (numeric_reads_back L b Hb) as (Hcb & Hnb & Heb).
  destruct (getLatLngFromInput_two_numeric q _ _ Hca Hcb Hna Hnb Hv)
    as [_ Hparse].
  eexists. split; [exact Hparse|]. now split.
Qed.

(** C2: for a well-formed coordinate [c] in any accepted shape, after
    [setInputFromLatLng(c)] the text of the input parses, with
    [_getLatLngFromInput], to a coordinate whose latitude and longitude are
    equal to those of [c].  The laws of [JsNumberLaws] are what the runtime
    guarantees of printing and reading numbers. *)
Theorem text_round_trip (L : JsNumberLaws N) (p : Picker) (c : jsval) :
  well_formed c = true ->
  exists given parsed,
    L_latLng c undefined undefined = Normal (LatLngObj given)
    /\ _getLatLngFromInput (step p (SetInputFromLatLng c))
       = (Normal (LatLngObj parsed), step p (SetInputFromLatLng c))
    /\ same_coordinate parsed given = true.
Proof.
  intros Hwf.
  assert (Hcore : forall a b given,
             numeric a = true -> numeric b = true ->
             coordinate_text c = Normal (ToString a ++ "," ++ ToString b) ->
             L_latLng c undefined undefined = Normal (LatLngObj given) ->
             lat given = ToNumber_prim a -> lng given = ToNumber_prim b ->
             exists given parsed,
               L_latLng c undefined undefined = Normal (LatLngObj given)
               /\ _getLatLngFromInput (step p (SetInputFromLatLng c))
                  = (Normal (LatLngObj parsed), step p (SetInputFromLatLng c))
               /\ same_coordinate parsed given = true).
  { intros a b given Ha Hb Htext Hgiven Hlat Hlng.
    pose proof (setInputFromLatLng_text p c _ Htext) as Hv.
    destruct (components_round_trip L _ a b Ha Hb Hv) as (parsed & Hp & Hea & Heb).
    exists given, parsed. split; [exact Hgiven|]. split; [exact Hp|].
    unfold same_coordinate. now rewrite Hlat, Hlng, Hea, Heb. }
  destruct c as [q|elems|ll|o]; simpl in Hwf; try discriminate.
  - destruct elems as [|a [|b [|x rest]]]; try discriminate.
    apply andb_true_iff in Hwf as [Ha Hb].
    destruct (numeric_not_object a Ha) as (Hoa & Hja & Hna).
    destruct (numeric_not_object b Hb) as (_ & Hjb & Hnb).
    apply (Hcore a b {| lat := ToNumber_prim a; lng := ToNumber_prim b;
                        alt := None |}); try assumption; try reflexivity.
    + simpl. now rewrite Hja, Hjb.
    + simpl. rewrite Hoa. unfold LatLng_new. now rewrite Hna, Hnb.
  - apply andb_true_iff in Hwf as [Ha Hb].
    apply (Hcore (Num (lat ll)) (Num (lng ll)) ll); try assumption;
      reflexivity.
  - destruct (prop_lat o) as [a|] eqn:Hlat; [|discriminate].
    destruct (prop_lng o) as [b|] eqn:Hlng; [|discriminate].
    apply andb_true_iff in Hwf as [Ha Hb].
    destruct (numeric_not_object a Ha) as (_ & _ & Hna).
    destruct (numeric_not_object b Hb) as (_ & _ & Hnb).
    apply (Hcore a b {| lat := ToNumber_prim a; lng := ToNumber_prim b;
                        alt := if is_undefined (Prim (get (prop_alt o)))
                               then None
                               else Some (ToNumber (Prim (get (prop_alt o)))) |});
      try assumption; try reflexivity.
    + simpl. now rewrite Hlat, Hlng.
    + simpl. rewrite Hlat, Hlng. unfold LatLng_new. now rewrite Hna, Hnb.
Qed.

End PickerProperties.

(** ** The decimal numerals satisfy the laws *)

Section DecimalNumberFacts.

Import DecimalNumber.

Lemma digit_of_char_of_digit (d : digit) :
  digit_of_char (char_of_digit d) = Some d.
Proof. destruct d; reflexivity. Qed.

Lemma digits_of_string_of_digits (ds : list digit) :
  digits_of_string (string_of_digits ds) = Some ds.
Proof.
  induction ds as [|d ds IH]; simpl; [reflexivity|].
  now rewrite digit_of_char_of_digit, IH.
Qed.

Lemma digit_eqb_refl (d : digit) : digit_eqb d d = true.
Proof. apply Ascii.eqb_refl. Qed.

Lemma digits_eqb_refl (ds : list digit) : digits_eqb ds ds = true.
Proof.
  induction ds as [|d ds IH]; simpl; [reflexivity|].
  now rewrite digit_eqb_refl, IH.
Qed.

Lemma strip_leading_idempotent (ds : list digit) :
  strip_leading (strip_leading ds) = strip_leading ds.
Proof.
  induction ds as [|d ds IH]; simpl; [reflexivity|].
  destruct (is_d0 d) eqn:E; [exact IH|]. simpl. now rewrite E.
Qed.

Lemma strip_trailing_idempotent (ds : list digit) :
  strip_trailing (strip_trailing ds) = strip_trailing ds.
Proof.
  induction ds as [|d ds IH]; simpl; [reflexivity|].
  destruct (strip_trailing ds) as [|x kept] eqn:E.
  - destruct (is_d0 d) eqn:Ed; simpl; [reflexivity|]. now rewrite Ed.
  - change (strip_trailing (d :: x :: kept))
      with (match strip_trailing (x :: kept) with
            | [] => if is_d0 d then [] else [d]
            | k => d :: k
            end).
    now rewrite IH.
Qed.

(** A numeral's digits hold no point, so the first point of the text is
    the one that separates them. *)
Lemma split_point_digits (ds : list digit) (rest : string) :
  split_point (string_of_digits ds ++ String "." rest)
  = (string_of_digits ds, Some rest).
Proof.
  induction ds as [|d ds IH]; simpl; [reflexivity|].
  rewrite IH. now destruct d.
Qed.

Lemma split_point_digits_only (ds : list digit) :
  split_point (string_of_digits ds) = (string_of_digits ds, None).
Proof.
  induction ds as [|d ds IH]; simpl; [reflexivity|].
  rewrite IH. now destruct d.
Qed.

Lemma of_string_digit_first (d : digit) (rest : string) :
  of_string (String (char_of_digit d) rest)
  = unsigned_of_string false (String (char_of_digit d) rest).
Proof. now destruct d. Qed.

(** Reading the digits [i], a point if [f] has digits, and [f]. *)
Lemma unsigned_of_numeral (neg : bool) (i f : list digit) :
  i <> [] ->
  unsigned_of_string neg
    (string_of_digits i
     ++ match f with [] => "" | _ => String "." (string_of_digits f) end)
  = DFinite neg i f.
Proof.
  intros Hi. unfold unsigned_of_string.
  destruct f as [|x f].
  - replace (string_of_digits i ++ "") with (string_of_digits i)
      by (induction (string_of_digits i); simpl; congruence).
    rewrite split_point_digits_only, digits_of_string_of_digits. simpl.
    now destruct i.
  - rewrite split_point_digits, !digits_of_string_of_digits.
    now destruct i.
Qed.



(** Printing a number and reading the text back. *)
Lemma decimal_round_trip (n : t) :
  is_nan n = false -> eqb (of_string (to_string n)) n = true.
Proof.
  destruct n as [|neg i f]; [discriminate|]. intros _.
  unfold to_string.
  destruct (strip_leading i) as [|x si] eqn:Ei;
    destruct (strip_trailing f) as [|y sf] eqn:Ef.
  - simpl. rewrite Ei, Ef. now destruct neg.
  - assert (H : of_string ((if neg then "-" else "") ++ "0"
                           ++ String "." (string_of_digits (y :: sf)))
                = DFinite neg [d0] (y :: sf)).
    { pose proof (unsigned_of_numeral neg [d0] (y :: sf)) as U.
      destruct neg; simpl in *; apply U; discriminate. }
    rewrite H. unfold eqb. rewrite Ei, Ef, <- Ef.
    rewrite strip_trailing_idempotent. simpl strip_leading.
    rewrite !digits_eqb_refl, Bool.eqb_reflx. reflexivity.
  - assert (H : of_string ((if neg then "-" else "")
                           ++ string_of_digits (x :: si) ++ "")
                = DFinite neg (x :: si) []).
    { pose proof (unsigned_of_numeral neg (x :: si) []) as U.
      destruct neg.
      - apply U. discriminate.
      - change ("" ++ ?s) with s.
        change (string_of_digits (x :: si) ++ "")
          with (String (char_of_digit x) (string_of_digits si ++ "")).
        rewrite of_string_digit_first. apply U. discriminate. }
    rewrite H. unfold eqb. rewrite Ei, Ef, <- Ei.
    rewrite strip_leading_idempotent. simpl strip_trailing.
    rewrite !digits_eqb_refl, Bool.eqb_reflx. reflexivity.
  - assert (H : of_string ((if neg then "-" else "")
                           ++ string_of_digits (x :: si)
                           ++ String "." (string_of_digits (y :: sf)))
                = DFinite neg (x :: si) (y :: sf)).
    { pose proof (unsigned_of_numeral neg (x :: si) (y :: sf)) as U.
      destruct neg.
      - apply U. discriminate.
      - change ("" ++ ?s) with s.
        change (string_of_digits (x :: si) ++ ?r)
          with (String (char_of_digit x) (string_of_digits si ++ r)).
        rewrite of_string_digit_first. apply U. discriminate. }
    rewrite H. unfold eqb. rewrite Ei, Ef, <- Ei, <- Ef.
    rewrite strip_leading_idempotent, strip_trailing_idempotent,
      !digits_eqb_refl, Bool.eqb_reflx.
    reflexivity.
Qed.

Lemma decimal_eqb_not_nan (x y : t) : eqb x y = true -> is_nan x = false.
Proof. now destruct x. Qed.

Lemma decimal_eqb_refl (x : t) : is_nan x = false -> eqb x x = true.
Proof.
  destruct x as [|neg i f]; [discriminate|]. intros _. unfold eqb.
  now rewrite !digits_eqb_refl, Bool.eqb_reflx.
Qed.

(** *** No comma in a numeral *)

Lemma digits_no_comma (ds : list digit) :
  JsString.no_comma (string_of_digits ds) = true.
Proof.
  induction ds as [|d ds IH]; simpl; [reflexivity|].
  rewrite IH. now destruct d.
Qed.

Lemma decimal_to_string_no_comma (n : t) :
  JsString.no_comma (to_string n) = true.
Proof.
  destruct n as [|neg i f]; [reflexivity|]. unfold to_string.
  assert (H : forall si sf,
             JsString.no_comma
               ((if neg then "-" else "")
                ++ match si with [] => "0" | _ => string_of_digits si end
                ++ match sf with
                   | [] => ""
                   | _ => String "." (string_of_digits sf)
                   end) = true).
  { intros si sf. rewrite !no_comma_app.
    assert (H1 : JsString.no_comma (if neg then "-" else "") = true)
      by now destruct neg.
    assert (H2 : JsString.no_comma
                   match si with [] => "0" | _ => string_of_digits si end
                 = true)
      by (destruct si; [reflexivity|apply digits_no_comma]).
    assert (H3 : JsString.no_comma
                   match sf with
                   | [] => ""
                   | _ => String "." (string_of_digits sf)
                   end = true)
      by (destruct sf as [|d sf]; [reflexivity|];
          apply (digits_no_comma (d :: sf))).
    now rewrite H1, H2, H3. }
  destruct (strip_leading i) as [|x si]; destruct (strip_trailing f) as [|y sf];
    [reflexivity|apply (H [] (y :: sf))|apply (H (x :: si) [])
    |apply (H (x :: si) (y :: sf))].
Qed.

Lemma digit_char_not_comma (c : ascii) (d : digit) :
  digit_of_char c = Some d -> Ascii.eqb c JsString.comma = false.
Proof.
  intros H. destruct (Ascii.eqb c JsString.comma) eqn:E; [|reflexivity].
  apply Ascii.eqb_eq in E. subst c. discriminate.
Qed.

Lemma digits_of_string_no_comma (s : string) (ds : list digit) :
  digits_of_string s = Some ds -> JsString.no_comma s = true.
Proof.
  revert ds. induction s as [|c s IH]; simpl; intros ds H; [reflexivity|].
  destruct (digit_of_char c) as [d|] eqn:Ed; [|discriminate].
  destruct (digits_of_string s) as [ds'|]; [|discriminate].
  now rewrite (digit_char_not_comma c d Ed), (IH ds').
Qed.

Lemma split_point_no_comma (s before : string) (after : option string) :
  split_point s = (before, after) ->
  JsString.no_comma before = true ->
  JsString.no_comma match after with Some a => a | None => "" end = true ->
  JsString.no_comma s = true.
Proof.
  revert before. induction s as [|c s IH]; simpl; intros before Hs Hb Ha;
    [reflexivity|].
  destruct (Ascii.eqb c ".") eqn:Ec.
  - injection Hs as <- <-. apply Ascii.eqb_eq in Ec. subst c. exact Ha.
  - destruct (split_point s) as [b a]. injection Hs as <- <-.
    simpl in Hb. apply andb_true_iff in Hb as [Hc Hb].
    rewrite Hc. simpl. now apply (IH b).
Qed.

Lemma unsigned_no_comma (neg : bool) (s : string) :
  is_nan (unsigned_of_string neg s) = false -> JsString.no_comma s = true.
Proof.
  unfold unsigned_of_string.
  destruct (split_point s) as [before after] eqn:Hs.
  destruct (digits_of_string before) as [i|] eqn:Hi; [|discriminate].
  destruct (digits_of_string match after with Some a => a | None => "" end)
    as [f|] eqn:Hf; [|discriminate].
  intros _. apply (split_point_no_comma s before after Hs).
  - exact (digits_of_string_no_comma _ _ Hi).
  - exact (digits_of_string_no_comma _ _ Hf).
Qed.

Lemma decimal_numeric_no_comma (s : string) :
  is_nan (of_string s) = false -> JsString.no_comma s = true.
Proof.
  destruct s as [|c s]; [reflexivity|]. unfold of_string.
  destruct (Ascii.eqb c "-") eqn:Em.
  - apply Ascii.eqb_eq in Em. subst c. intros H.
    exact (unsigned_no_comma true s H).
  - destruct (Ascii.eqb c "+") eqn:Ep.
    + apply Ascii.eqb_eq in Ep. subst c. intros H.
      exact (unsigned_no_comma false s H).
    + apply unsigned_no_comma.
Qed.

End DecimalNumberFacts.

Lemma decimal_number_laws : JsNumberLaws decimal_number.
Proof.
  split.
  - exact decimal_round_trip.
  - exact decimal_eqb_not_nan.
  - exact decimal_eqb_refl.
  - exact decimal_to_string_no_comma.
  - exact decimal_numeric_no_comma.
Qed.

(** ** The scenarios *)

Section Scenarios.

Import Scenario.

#[local] Existing Instance decimal_number.


Lemma marked_reachable : reachable marked.
Proof.
  apply (reachable_new by_selector (document "1.5,-2.5")). reflexivity.
Qed.

(** Scenario B: an input holding a coordinate starts with a marker there. *)
Example scenario_B :
  option_map marker_state
    (match OsmPicker by_selector
             (document "47.486980809455176,19.046259276129007") with
     | Normal p => Some p
     | Throw _ => None
     end)
  = Some (MarkerAt (coordinate "47.486980809455176" "19.046259276129007")).
Proof. reflexivity. Qed.



(** The round trip of [[1.5, -2.5]]. *)
Lemma text_round_trip_witness :
  well_formed (Arr [Num (literal "1.5"); Num (literal "-2.5")]) = true
  /\ exists given parsed,
      L_latLng (Arr [Num (literal "1.5"); Num (literal "-2.5")])
               undefined undefined = Normal (LatLngObj given)
      /\ _getLatLngFromInput
           (step blank (SetInputFromLatLng
                          (Arr [Num (literal "1.5"); Num (literal "-2.5")])))
         = (Normal (LatLngObj parsed),
            step blank (SetInputFromLatLng
                          (Arr [Num (literal "1.5"); Num (literal "-2.5")])))
      /\ same_coordinate parsed given = true.
Proof.
  split; [reflexivity|].
  exact (text_round_trip decimal_number_laws blank
           (Arr [Num (literal "1.5"); Num (literal "-2.5")]) eq_refl).
Defined.

(** The text of scenario B, parsed. *)
Lemma parse_two_numeric_components_witness :
  JsString.split (value (_inputElement
                           (set_value "47.486980809455176,19.046259276129007"
                                      blank)))
  = ["47.486980809455176"; "19.046259276129007"]
  /\ _getLatLngFromInput
       (set_value "47.486980809455176,19.046259276129007" blank)
     = (Normal (LatLngObj (coordinate "47.486980809455176"
                                      "19.046259276129007")),
        set_value "47.486980809455176,19.046259276129007" blank).
Proof.
  exact (parse_two_numeric_components
           (set_value "47.486980809455176,19.046259276129007" blank)
           "47.486980809455176" "19.046259276129007"
           eq_refl eq_refl eq_refl eq_refl eq_refl).
Defined.






(** A zoom of [0] is replaced like a zoom that is left out. *)
Lemma falsy_defaults_are_replaced_witness :
  truthy (number_of "0") = false
  /\ OsmPicker (configured undefined (number_of "0")) (document "")
     = OsmPicker (configured undefined undefined) (document "")
  /\ view (constructed (OsmPicker (configured undefined (number_of "0"))
                                  (document "")))
     = (Some (coordinate "47.4953" "19.0645"), number_of "14").
Proof.
  split; [reflexivity|]. split; [|reflexivity].
  exact (proj1 (proj2 (falsy_defaults_are_replaced
                         (Some "location") None None
                         undefined (number_of "0") (document "")))).
Defined.

(** The failing input of C9, run: after construction over an empty input
    and a change to the empty text, [_setMarker] has been called once, with
    [null], and the listener ended in a [TypeError]. *)
Example change_listener_passes_null_run :
  setMarker_calls blank = []
  /\ setMarker_calls (step blank (InputChange "")) = [null]
  /\ fst (handle (InputChange "") blank) = Throw TypeError.
Proof. repeat split. Qed.

End Scenarios.

(** * Further properties of the code *)

Section MoreProperties.

Context {N : JsNumber}.

(** ** What [_getLatLngFromInput] makes of a text *)

Lemma two_pieces_not_empty (text a b : string) (rest : list string) :
  JsString.split text = a :: b :: rest -> JsString.is_empty text = false.
Proof. destruct text; [discriminate|reflexivity]. Qed.

Lemma split_three (s1 s2 s3 : string) :
  JsString.no_comma s1 = true ->
  JsString.no_comma s2 = true ->
  JsString.no_comma s3 = true ->
  JsString.split (s1 ++ "," ++ s2 ++ "," ++ s3) = [s1; s2; s3].
Proof.
  intros H1 H2 H3.
  rewrite (split_at_comma _ _ H1), (split_at_comma _ _ H2).
  now rewrite (split_no_comma _ H3).
Qed.

Lemma getLatLngFromInput_null_no_comma (p : Picker) :
  fst (_getLatLngFromInput p) = Normal null ->
  JsString.no_comma (value (_inputElement p)) = true.
Proof.
  intros H.
  destruct (JsString.no_comma (value (_inputElement p))) eqn:Hc;
    [reflexivity|exfalso].
  destruct (split_comma_has_two _ Hc) as (a & b & rest & Hs).
  rewrite (getLatLngFromInput_pieces p a b rest Hs
             (two_pieces_not_empty _ _ _ _ Hs)) in H.
  unfold LatLng_new in H. simpl in H.
  destruct (isNaN _ || isNaN _); discriminate.
Qed.

(** X1: [_getLatLngFromInput] returns [null] exactly when the text of the
    input holds no comma (the empty text included); a text with a comma
    gives a coordinate or an exception, never [null]. *)
Theorem parse_null_iff_no_comma (p : Picker) :
  fst (_getLatLngFromInput p) = Normal null
  <-> JsString.no_comma (value (_inputElement p)) = true.
Proof.
  split.
  - apply getLatLngFromInput_null_no_comma.
  - intros H. now rewrite getLatLngFromInput_no_comma.
Qed.

(** The constructor refuses a first or second piece that is not a number. *)
Lemma getLatLngFromInput_bad_component
      (p : Picker) (a b : string) (rest : list string) :
  JsString.split (value (_inputElement p)) = a :: b :: rest ->
  isNaN (Prim (Str a)) || isNaN (Prim (Str b)) = true ->
  _getLatLngFromInput p
  = (Throw (InvalidLatLng (Prim (Str a)) (Prim (Str b))), p).
Proof.
  intros Hs Hn.
  rewrite (getLatLngFromInput_pieces p a b rest Hs
             (two_pieces_not_empty _ _ _ _ Hs)).
  unfold LatLng_new. now rewrite Hn.
Qed.

(** X2: when the text has three pieces or more, the third is read as the
    altitude, whatever it holds, and the pieces after it are ignored. *)
Theorem third_piece_is_altitude
        (p : Picker) (a b c : string) (rest : list string) :
  JsString.split (value (_inputElement p)) = a :: b :: c :: rest ->
  num_isNaN (StringToNumber a) = false ->
  num_isNaN (StringToNumber b) = false ->
  _getLatLngFromInput p
  = (Normal (LatLngObj {| lat := StringToNumber a;
                          lng := StringToNumber b;
                          alt := Some (StringToNumber c) |}), p).
Proof.
  intros Hs Ha Hb.
  rewrite (getLatLngFromInput_pieces p a b (c :: rest) Hs
             (two_pieces_not_empty _ _ _ _ Hs)).
  unfold LatLng_new, isNaN. simpl. now rewrite Ha, Hb.
Qed.

(** ** Input changes *)

(** X3: a change to a text whose first or second piece is not a number
    ends in Leaflet's [Invalid LatLng object] error before [_setMarker] is
    called: the input holds the new text, while the markers, the view and
    [_marker] are as before. *)
Theorem change_to_bad_component_is_rejected
        (p : Picker) (text a b : string) (rest : list string) :
  JsString.split text = a :: b :: rest ->
  isNaN (Prim (Str a)) || isNaN (Prim (Str b)) = true ->
  handle (InputChange text) p
  = (Throw (InvalidLatLng (Prim (Str a)) (Prim (Str b))), set_value text p)
  /\ displayed (step p (InputChange text)) = displayed p
  /\ view (step p (InputChange text)) = view p
  /\ _marker (step p (InputChange text)) = _marker p
  /\ setMarker_calls (step p (InputChange text)) = setMarker_calls p.
Proof.
  intros Hs Hn.
  assert (H : handle (InputChange text) p
              = (Throw (InvalidLatLng (Prim (Str a)) (Prim (Str b))),
                 set_value text p)).
  { rewrite change_run.
    now rewrite (getLatLngFromInput_bad_component (set_value text p)
                   a b rest Hs Hn). }
  split; [exact H|]. unfold step. rewrite H. now repeat split.
Qed.




(** ** Construction over an input that holds a text *)




(** X9: when the input gives no coordinate and the default coordinate is
    one [L.latLng] does not accept, the constructor throws at [setView]: no
    instance comes to be. *)
Theorem construction_rejects_bad_default
        (settings : option Settings) (document : Document)
        (input : InputElement) :
  find_input (default_settings settings) document = Some input ->
  JsString.no_comma (value input) = true ->
  (forall c, L_latLng (latLng (default_view (default_settings settings)))
                      undefined undefined <> Normal (LatLngObj c)) ->
  exists e, OsmPicker settings document = Throw e.
Proof.
  intros Hin Hnc Hbad.
  unfold OsmPicker. rewrite initialize_run. cbv zeta. rewrite Hin.
  rewrite getLatLngFromInput_no_comma by exact Hnc.
  change (or_else null ?d) with d.
  rewrite setView_run.
  destruct (L_latLng _ undefined undefined) as [[q|l|ll|o]|e] eqn:E;
    try (eexists; reflexivity).
  now destruct (Hbad ll).
Qed.

(** An input that cannot be found: the first revision throws as well. *)
Lemma construction_without_input
      (settings : option Settings) (document : Document) :
  find_input (default_settings settings) document = None ->
  OsmPicker settings document = Throw TypeError.
Proof.
  intros Hin. unfold OsmPicker. rewrite initialize_run. cbv zeta.
  now rewrite Hin.
Qed.

(** ** What the events leave alone *)

(** Apart from the markers, [_setMarker] leaves the map as it is. *)
Lemma setMarker_keeps_map_frame (v : jsval) (p : Picker) :
  _mapElement (snd (_setMarker v p)) = _mapElement p
  /\ _container (_map (snd (_setMarker v p))) = _container (_map p).
Proof.
  rewrite setMarker_run. cbv zeta.
  assert (Hc : _container match _marker p with
                          | Some old => remove_layer (_leaflet_id old) (_map p)
                          | None => _map p
                          end = _container (_map p))
    by (destruct (_marker p); reflexivity).
  destruct (L_latLng v undefined undefined) as [pos|e]; [|now split].
  destruct (hasLayer _ _); [now split|].
  destruct pos; now split.
Qed.

Lemma setView_keeps_zoom (c : jsval) (p : Picker) :
  _zoom (_map (snd (Map_setView c undefined p))) = _zoom (_map p)
  /\ _mapElement (snd (Map_setView c undefined p)) = _mapElement p
  /\ _container (_map (snd (Map_setView c undefined p)))
     = _container (_map p).
Proof.
  rewrite setView_run.
  destruct (L_latLng c undefined undefined) as [[q|l|ll|o]|e];
    now repeat split.
Qed.

Lemma zoom_of_view (p q : Picker) :
  view q = view p -> _zoom (_map q) = _zoom (_map p).
Proof. unfold view. now intros [= _ ->]. Qed.

(** X10: no event changes the zoom of the map, and neither a click nor an
    input change moves its centre; only [setInputFromLatLng] recentres. *)
Theorem events_keep_zoom (p : Picker) :
  (forall e, _zoom (_map (step p e)) = _zoom (_map p))
  /\ (forall c, view (step p (MapClick c)) = view p)
  /\ (forall text, view (step p (InputChange text)) = view p).
Proof.
  assert (Hclick : forall c, view (step p (MapClick c)) = view p).
  { intros c. unfold step. rewrite click_run.
    destruct (setMarker_keeps_text_and_view
                (LatLngObj c)
                (set_value (NumberToString (lat c) ++ ","
                            ++ NumberToString (lng c)) p))
      as (_ & Hv & _).
    rewrite Hv. reflexivity. }
  assert (Hchange : forall text, view (step p (InputChange text)) = view p).
  { intros text. unfold step. rewrite change_run.
    destruct (_getLatLngFromInput (set_value text p)) as [[parsed|e] q];
      [|reflexivity].
    destruct (setMarker_keeps_text_and_view parsed (set_value text p))
      as (_ & Hv & _).
    rewrite Hv. reflexivity. }
  split; [|split; [exact Hclick|exact Hchange]].
  intros [c|text|v].
  - apply zoom_of_view, Hclick.
  - apply zoom_of_view, Hchange.
  - unfold step. rewrite setInputFromLatLng_run.
    destruct (coordinate_text v) as [text|e]; [|reflexivity].
    pose proof (setView_keeps_zoom v (set_value text p)) as (Hz & _).
    destruct (Map_setView v undefined (set_value text p)) as [[u|e] q];
      simpl in Hz; [|exact Hz].
    destruct (setMarker_keeps_text_and_view v q) as (_ & Hv & _).
    now rewrite (zoom_of_view _ _ Hv).
Qed.

Lemma step_keeps_map_frame (p : Picker) (e : event) :
  _mapElement (step p e) = _mapElement p
  /\ _container (_map (step p e)) = _container (_map p).
Proof.
  unfold step. destruct e as [c|text|v].
  - rewrite click_run.
    exact (setMarker_keeps_map_frame
             (LatLngObj c)
             (set_value (NumberToString (lat c) ++ ","
                         ++ NumberToString (lng c)) p)).
  - rewrite change_run.
    destruct (_getLatLngFromInput (set_value text p)) as [[parsed|e] q];
      [|now split].
    exact (setMarker_keeps_map_frame parsed (set_value text p)).
  - rewrite setInputFromLatLng_run.
    destruct (coordinate_text v) as [text|e]; [|now split].
    pose proof (setView_keeps_zoom v (set_value text p)) as (_ & Hm & Hc).
    destruct (Map_setView v undefined (set_value text p)) as [[u|e] q];
      simpl in Hm, Hc; [|now split].
    destruct (setMarker_keeps_map_frame v q) as [-> ->]. now split.
Qed.

(** X11: the map of an instance is rendered in the element given as
    [settings.mapElement], or else in a [div] whose id is the selector
    followed by [-osm-picker]; whatever events follow, the map stays in
    that element. *)
Theorem map_stays_in_its_element
        (settings : option Settings) (document : Document) (p : Picker)
        (events : list event) :
  OsmPicker settings document = Normal p ->
  _mapElement (run p events) = map_element (default_settings settings)
  /\ _container (getMap (run p events))
     = map_element (default_settings settings)
  /\ (forall given,
        mapElement (default_settings settings) = Some given ->
        _container (getMap (run p events)) = given)
  /\ (mapElement (default_settings settings) = None ->
      elem_id (_container (getMap (run p events)))
      = selector_text (default_settings settings) ++ "-osm-picker").
Proof.
  intros Hnew.
  assert (H0 : _mapElement p = map_element (default_settings settings)
               /\ _container (_map p)
                  = map_element (default_settings settings)).
  { revert Hnew. unfold OsmPicker. rewrite initialize_run. cbv zeta.
    destruct (find_input _ _) as [input|]; [|discriminate].
    set (start := mkPicker _ _ _ _ _ _).
    pose proof (getLatLngFromInput_state start) as Hs.
    destruct (_getLatLngFromInput start) as [[parsed|e] q]; [|discriminate].
    rewrite setView_run.
    destruct (L_latLng _ undefined undefined) as [[x|x|ll|x]|e];
      try discriminate.
    set (viewed := set_map _ start).
    destruct (truthy parsed).
    - pose proof (setMarker_keeps_map_frame parsed viewed) as [Hm Hc].
      destruct (_setMarker parsed viewed) as [[u|e] r]; [|discriminate].
      intros [= <-]. simpl in Hm, Hc. now rewrite Hm, Hc.
    - intros [= <-]. now split. }
  assert (H : _mapElement (run p events)
              = map_element (default_settings settings)
              /\ _container (_map (run p events))
                 = map_element (default_settings settings)).
  { clear Hnew. revert p H0. unfold run.
    induction events as [|e events IH]; intros p H0; [exact H0|].
    simpl. apply IH.
    destruct (step_keeps_map_frame p e) as [-> ->]. exact H0. }
  destruct H as [Hm Hc]. unfold getMap.
  split; [exact Hm|]. split; [exact Hc|]. split.
  - intros given Hg. rewrite Hc. unfold map_element. now rewrite Hg.
  - intros Hg. rewrite Hc. unfold map_element. now rewrite Hg.
Qed.

(** ** The tile layer *)

Lemma setMarker_tiled (v : jsval) (p : Picker) :
  tiled p -> tiled (snd (_setMarker v p)).
Proof.
  intros (Hin & Hall & Hid & Hheld).
  rewrite setMarker_run. cbv zeta.
  set (m1 := match _marker p with
             | Some old => remove_layer (_leaflet_id old) (_map p)
             | None => _map p
             end).
  assert (Hin1 : In osm_tiles (_layers m1)).
  { unfold m1. destruct (_marker p) as [old|] eqn:Hm; [|exact Hin].
    simpl. apply filter_In. split; [exact Hin|].
    specialize (Hheld old eq_refl). simpl.
    destruct (_leaflet_id old) as [|[|k]]; [lia|lia|reflexivity]. }
  assert (Hall1 : forall l, In l (_layers m1) ->
                            l = osm_tiles \/ exists i ll, l = (i, MarkerLayer ll)).
  { intros l Hl. apply Hall. unfold m1 in Hl.
    destruct (_marker p); [|exact Hl]. simpl in Hl.
    now apply filter_In in Hl. }
  assert (Hkeep : forall mk i,
             lastId p <= i ->
             (forall held, mk = Some held -> 1 < _leaflet_id held) ->
             tiled (mkPicker (_inputElement p) (_mapElement p) m1 mk i
                             (setMarker_calls p ++ [v])%list)).
  { intros mk i Hi Hmk. split; [exact Hin1|]. split; [exact Hall1|].
    split; [simpl; lia|exact Hmk]. }
  assert (Hnew : forall pos held,
             Some (mkMarker (S (lastId p)) pos) = Some held ->
             1 < _leaflet_id held).
  { intros pos held [= <-]. simpl. lia. }
  destruct (L_latLng v undefined undefined) as [pos|e].
  - destruct (hasLayer _ m1).
    + apply Hkeep; [lia|apply Hnew].
    + destruct pos as [q|l|ll|o]; try (apply Hkeep; [lia|exact Hheld]).
      split; [|split; [|split]]; simpl.
      * apply in_or_app. now left.
      * intros l Hl. apply in_app_or in Hl as [Hl|[<-|[]]];
          [now apply Hall1|]. right. now eexists _, _.
      * lia.
      * apply Hnew.
  - apply Hkeep; [lia|exact Hheld].
Qed.

Lemma step_tiled (p : Picker) (e : event) : tiled p -> tiled (step p e).
Proof.
  intros H. unfold step. destruct e as [c|text|v].
  - rewrite click_run. now apply setMarker_tiled.
  - rewrite change_run.
    destruct (_getLatLngFromInput (set_value text p)) as [[parsed|e] q];
      [|exact H].
    now apply setMarker_tiled.
  - rewrite setInputFromLatLng_run.
    destruct (coordinate_text v) as [text|e]; [|exact H].
    rewrite setView_run.
    destruct (L_latLng v undefined undefined) as [[q|l|ll|o]|e];
      try exact H.
    now apply setMarker_tiled.
Qed.

Lemma OsmPicker_tiled (settings : option Settings) (document : Document)
      (p : Picker) :
  OsmPicker settings document = Normal p -> tiled p.
Proof.
  unfold OsmPicker. rewrite initialize_run. cbv zeta.
  destruct (find_input _ _) as [input|]; [|discriminate].
  set (start := mkPicker _ _ _ _ _ _).
  assert (Hstart : tiled start).
  { split; [|split; [|split]]; simpl.
    - now left.
    - intros l [<-|[]]. now left.
    - lia.
    - discriminate. }
  destruct (_getLatLngFromInput start) as [[parsed|e] q]; [|discriminate].
  rewrite setView_run.
  destruct (L_latLng _ undefined undefined) as [[x|x|ll|x]|e];
    try discriminate.
  set (viewed := set_map _ start).
  assert (Hviewed : tiled viewed) by exact Hstart.
  destruct (truthy parsed).
  - pose proof (setMarker_tiled parsed viewed Hviewed) as Ht.
    destruct (_setMarker parsed viewed) as [[u|e] r]; [|discriminate].
    intros [= <-]. exact Ht.
  - intros [= <-]. exact Hviewed.
Qed.

(** X12: the map [getMap] returns always carries the OpenStreetMap tile
    layer added at construction, with its attribution: no event removes
    it, and every other layer on the map is a marker. *)
Theorem tile_layer_stays (p : Picker) :
  reachable p ->
  In osm_tiles (_layers (getMap p))
  /\ (forall l, In l (_layers (getMap p)) ->
                l = osm_tiles \/ exists i ll, l = (i, MarkerLayer ll)).
Proof.
  intros H.
  assert (Ht : tiled p).
  { induction H as [settings document p Hnew|p e _ IH].
    - exact (OsmPicker_tiled _ _ _ Hnew).
    - now apply step_tiled. }
  destruct Ht as (Hin & Hall & _). now split.
Qed.

(** ** Arguments [setInputFromLatLng] does not accept *)

(** X13: [setInputFromLatLng] on a value from which [L.latLng] gets no
    coordinate throws and leaves the view, the markers and [_marker] as
    they were, without calling [_setMarker].  For [undefined] and [null]
    the text is left too; for any other such value the text has already been
    overwritten, so that the input and the marker no longer agree. *)
Theorem setInputFromLatLng_rejects (p : Picker) (v : jsval) :
  (forall c, L_latLng v undefined undefined <> Normal (LatLngObj c)) ->
  (exists e, fst (handle (SetInputFromLatLng v) p) = Throw e)
  /\ view (step p (SetInputFromLatLng v)) = view p
  /\ displayed (step p (SetInputFromLatLng v)) = displayed p
  /\ _marker (step p (SetInputFromLatLng v)) = _marker p
  /\ setMarker_calls (step p (SetInputFromLatLng v)) = setMarker_calls p
  /\ value (_inputElement (step p (SetInputFromLatLng v)))
     = match coordinate_text v with
       | Normal text => text
       | Throw _ => value (_inputElement p)
       end.
Proof.
  intros Hbad. unfold step. rewrite setInputFromLatLng_run.
  destruct (coordinate_text v) as [text|e].
  - rewrite setView_run.
    destruct (L_latLng v undefined undefined) as [[q|l|ll|o]|e];
      try (split; [eexists; reflexivity|now repeat split]).
    now destruct (Hbad ll).
  - split; [eexists; reflexivity|now repeat split].
Qed.

(** ** The reference held in [_marker] *)




(** ** Where [null] can reach [_setMarker] *)

(** X15: the listener of [change] is the only caller that passes [null] to
    [_setMarker], and it does so only for a text without a comma: a click
    passes the clicked coordinate, and [setInputFromLatLng] reaches
    [_setMarker] only with a value [setView] has accepted. *)
Theorem null_only_from_change (p : Picker) (e : event) :
  In null (setMarker_calls (step p e)) ->
  In null (setMarker_calls p)
  \/ exists text, e = InputChange text /\ JsString.no_comma text = true.
Proof.
  unfold step. destruct e as [c|text|v].
  - rewrite click_run.
    destruct (setMarker_keeps_text_and_view
                (LatLngObj c)
                (set_value (NumberToString (lat c) ++ ","
                            ++ NumberToString (lng c)) p))
      as (_ & _ & Hc).
    rewrite Hc. intros Hin. apply in_app_or in Hin as [Hin|[Hin|[]]];
      [now left|discriminate].
  - rewrite change_run.
    pose proof (getLatLngFromInput_null_no_comma (set_value text p)) as Hnull.
    destruct (_getLatLngFromInput (set_value text p)) as [[parsed|err] q];
      [|intros Hin; now left].
    destruct (setMarker_keeps_text_and_view parsed (set_value text p))
      as (_ & _ & Hc).
    rewrite Hc. intros Hin. apply in_app_or in Hin as [Hin|[Hin|[]]];
      [now left|].
    right. exists text. split; [reflexivity|].
    apply Hnull. simpl. now rewrite Hin.
  - rewrite setInputFromLatLng_run.
    destruct (coordinate_text v) as [text|err]; [|intros Hin; now left].
    rewrite setView_run.
    destruct (L_latLng v undefined undefined) as [[q|l|ll|o]|err] eqn:E;
      try (intros Hin; now left).
    destruct (setMarker_keeps_text_and_view
                v (set_map (set_view ll
                              (if is_undefined undefined
                               then _zoom (_map (set_value text p))
                               else undefined)
                              (_map (set_value text p)))
                           (set_value text p)))
      as (_ & _ & Hc).
    rewrite Hc. intros Hin. apply in_app_or in Hin as [Hin|[Hin|[]]];
      [now left|].
    subst v. discriminate E.
Qed.

(** ** Round trips through the text *)

(** X16: after a click at a coordinate whose latitude and longitude are not
    [NaN], the text written to the input parses back to an equal
    coordinate, so that a [change] raised on that text would put the marker
    where the click did.  The laws are those of printing and reading
    numbers. *)
Theorem click_text_parses_back (L : JsNumberLaws N) (p : Picker) (c : LatLng) :
  num_isNaN (lat c) = false ->
  num_isNaN (lng c) = false ->
  exists parsed,
    _getLatLngFromInput (step p (MapClick c))
    = (Normal (LatLngObj parsed), step p (MapClick c))
    /\ same_coordinate parsed c = true
    /\ alt parsed = None.
Proof.
  intros Hlat Hlng.
  assert (Hv : value (_inputElement (step p (MapClick c)))
               = NumberToString (lat c) ++ "," ++ NumberToString (lng c)).
  { unfold step. rewrite click_run.
    now destruct (setMarker_keeps_text_and_view
                    (LatLngObj c)
                    (set_value (NumberToString (lat c) ++ ","
                                ++ NumberToString (lng c)) p))
      as (-> & _). }
  assert (Ha : numeric (Num (lat c)) = true) by (simpl; now rewrite Hlat).
  assert (Hb : numeric (Num (lng c)) = true) by (simpl; now rewrite Hlng).
  destruct (numeric_reads_back L _ Ha) as (Hca & Hna & Hea).
  destruct (numeric_reads_back L _ Hb) as (Hcb & Hnb & Heb).
  destruct (getLatLngFromInput_two_numeric _ _ _ Hca Hcb Hna Hnb Hv)
    as [_ Hparse].
  eexists. split; [exact Hparse|]. split; [|reflexivity].
  unfold same_coordinate. simpl in *. now rewrite Hea, Heb.
Qed.

Lemma getLatLngFromInput_three_numeric (p : Picker) (s1 s2 s3 : string) :
  JsString.no_comma s1 = true ->
  JsString.no_comma s2 = true ->
  JsString.no_comma s3 = true ->
  num_isNaN (StringToNumber s1) = false ->
  num_isNaN (StringToNumber s2) = false ->
  value (_inputElement p) = s1 ++ "," ++ s2 ++ "," ++ s3 ->
  _getLatLngFromInput p
  = (Normal (LatLngObj {| lat := StringToNumber s1;
                          lng := StringToNumber s2;
                          alt := Some (StringToNumber s3) |}), p).
Proof.
  intros H1 H2 H3 Hn1 Hn2 Hv.
  assert (Hs : JsString.split (value (_inputElement p)) = [s1; s2; s3])
    by (rewrite Hv; now apply split_three).
  rewrite (getLatLngFromInput_pieces p s1 s2 [s3] Hs
             (two_pieces_not_empty _ _ _ _ Hs)).
  unfold LatLng_new, isNaN. simpl. now rewrite Hn1, Hn2.
Qed.

(** X17: a coordinate given to [setInputFromLatLng] as a triple
    [[lat, lng, alt]] of numeric-like values is written as three pieces, and
    parsing the text gives back latitude, longitude and altitude equal to
    those of the triple. *)
Theorem triple_round_trip (L : JsNumberLaws N) (p : Picker) (a b c : prim) :
  numeric a = true ->
  numeric b = true ->
  numeric c = true ->
  exists parsed height,
    _getLatLngFromInput (step p (SetInputFromLatLng (Arr [a; b; c])))
    = (Normal (LatLngObj parsed), step p (SetInputFromLatLng (Arr [a; b; c])))
    /\ L_latLng (Arr [a; b; c]) undefined undefined
       = Normal (LatLngObj {| lat := ToNumber_prim a;
                              lng := ToNumber_prim b;
                              alt := Some (ToNumber_prim c) |})
    /\ num_eqb (lat parsed) (ToNumber_prim a) = true
    /\ num_eqb (lng parsed) (ToNumber_prim b) = true
    /\ alt parsed = Some height
    /\ num_eqb height (ToNumber_prim c) = true.
Proof.
  intros Ha Hb Hc.
  destruct (numeric_not_object a Ha) as (Hoa & Hja & Hnna).
  destruct (numeric_not_object b Hb) as (_ & Hjb & Hnnb).
  destruct (numeric_not_object c Hc) as (_ & Hjc & _).
  destruct (numeric_reads_back L a Ha) as (Hca & Hna & Hea).
  destruct (numeric_reads_back L b Hb) as (Hcb & Hnb & Heb).
  destruct (numeric_reads_back L c Hc) as (Hcc & _ & Hec).
  assert (Htext : coordinate_text (Arr [a; b; c])
                  = Normal (ToString a ++ "," ++ ToString b ++ ","
                            ++ ToString c)).
  { simpl. now rewrite Hja, Hjb, Hjc. }
  pose proof (setInputFromLatLng_text p _ _ Htext) as Hv.
  rewrite (getLatLngFromInput_three_numeric _ _ _ _ Hca Hcb Hcc Hna Hnb Hv).
  eexists _, _. split; [reflexivity|]. split.
  - simpl. rewrite Hoa. unfold LatLng_new. rewrite Hnna, Hnnb.
    now destruct c.
  - now repeat split.
Qed.


End MoreProperties.

(** ** [_insertAfter] *)

Section InsertAfterProperties.

Context {N : JsNumber}.

Local Open Scope list_scope.

Lemma nextSibling_found (node : nat) (before after : NodeList) :
  ~ In node before ->
  nextSibling node (before ++ node :: after) = hd_error after.
Proof.
  induction before as [|c before IH]; simpl; intros Hn.
  - now rewrite Nat.eqb_refl.
  - destruct (Nat.eqb c node) eqn:E.
    + apply Nat.eqb_eq in E. exfalso. apply Hn. now left.
    + apply IH. intros H. apply Hn. now right.
Qed.

Lemma detach_app (node : nat) (l1 l2 : NodeList) :
  detach node (l1 ++ l2) = detach node l1 ++ detach node l2.
Proof. apply filter_app. Qed.

Lemma detach_other (node other : nat) (l : NodeList) :
  other <> node -> detach node (other :: l) = other :: detach node l.
Proof.
  intros H. unfold detach. simpl.
  destruct (Nat.eqb other node) eqn:E; [|reflexivity].
  apply Nat.eqb_eq in E. contradiction.
Qed.

Lemma detach_same (node : nat) (l : NodeList) :
  detach node (node :: l) = detach node l.
Proof. unfold detach. simpl. now rewrite Nat.eqb_refl. Qed.

Lemma detach_absent (node : nat) (l : NodeList) :
  ~ In node l -> detach node l = l.
Proof.
  induction l as [|c l IH]; intros H; [reflexivity|].
  rewrite detach_other, IH; [reflexivity| |].
  - intros Hin. apply H. now right.
  - intros ->. apply H. now left.
Qed.

Lemma detach_subset (node x : nat) (l : NodeList) :
  In x (detach node l) -> In x l.
Proof. intros H. now apply filter_In in H. Qed.

Lemma put_before_found (node reference : nat) (l1 l2 : NodeList) :
  ~ In reference l1 ->
  put_before node reference (l1 ++ reference :: l2)
  = l1 ++ node :: reference :: l2.
Proof.
  induction l1 as [|c l1 IH]; simpl; intros Hn.
  - now rewrite Nat.eqb_refl.
  - destruct (Nat.eqb c reference) eqn:E.
    + apply Nat.eqb_eq in E. exfalso. apply Hn. now left.
    + rewrite IH; [reflexivity|]. intros H. apply Hn. now right.
Qed.

Lemma existsb_member (c : nat) (l : NodeList) :
  In c l -> existsb (Nat.eqb c) l = true.
Proof.
  intros H. apply existsb_exists. exists c. split; [exact H|].
  apply Nat.eqb_refl.
Qed.

Lemma nextSibling_member (node sibling : nat) (children : NodeList) :
  nextSibling node children = Some sibling -> In sibling children.
Proof.
  induction children as [|c children IH]; simpl; [discriminate|].
  destruct (Nat.eqb c node).
  - destruct children as [|d children]; simpl; [discriminate|].
    intros [= ->]. right. now left.
  - intros H. right. now apply IH.
Qed.

(** [insertBefore] with the next sibling of a child as the reference. *)
Lemma insertBefore_next_sibling
      (node child : nat) (before after : NodeList) :
  NoDup (before ++ child :: after) ->
  node <> child ->
  insertBefore node (hd_error after) (before ++ child :: after)
  = Children (detach node before ++ child :: node :: detach node after).
Proof.
  intros Hnd Hne.
  pose proof (NoDup_remove_2 _ _ _ Hnd) as Hout.
  pose proof (NoDup_remove_1 _ _ _ Hnd) as Hrest.
  assert (Hb : ~ In child before)
    by (intros H; apply Hout, in_or_app; now left).
  assert (Ha : ~ In child after)
    by (intros H; apply Hout, in_or_app; now right).
  assert (Hdetach : detach node (before ++ child :: after)
                    = detach node before ++ child :: detach node after).
  { rewrite detach_app, detach_other; [reflexivity|].
    intros E. now apply Hne. }
  assert (Hfront : forall x, x <> child -> ~ In x before ->
                             ~ In x (detach node before ++ [child])).
  { intros x Hx Hxb H. apply in_app_or in H as [H|[H|[]]].
    - now apply Hxb, (detach_subset node).
    - now apply Hx. }
  destruct after as [|s after]; simpl hd_error; unfold insertBefore.
  - rewrite Hdetach. simpl. now rewrite <- app_assoc.
  - rewrite existsb_member by (apply in_or_app; right; right; now left).
    assert (Hs : s <> child) by (intros ->; apply Ha; now left).
    assert (Hsb : ~ In s before).
    { intros H. apply NoDup_remove_2 in Hrest. apply Hrest.
      apply in_or_app. now left. }
    assert (Hsa : ~ In s after).
    { intros H. apply NoDup_remove_2 in Hrest. apply Hrest.
      apply in_or_app. now right. }
    destruct (Nat.eqb s node) eqn:E.
    + apply Nat.eqb_eq in E. subst s.
      replace (before ++ child :: node :: after)
        with ((before ++ [child]) ++ node :: after)
        by (now rewrite <- app_assoc).
      rewrite nextSibling_found.
      2: { intros H. apply in_app_or in H as [H|[H|[]]];
           [now apply Hsb|now apply Hne]. }
      replace ((before ++ [child]) ++ node :: after)
        with (before ++ child :: node :: after)
        by (now rewrite <- app_assoc).
      rewrite Hdetach, detach_same, (detach_absent node after Hsa).
      destruct after as [|t after]; simpl hd_error.
      * now rewrite <- app_assoc.
      * assert (Ht : ~ In t (detach node before ++ [child])).
        { apply Hfront.
          - intros ->. apply Ha. right. now left.
          - intros H. apply NoDup_remove_1 in Hrest.
            apply NoDup_remove_2 in Hrest. apply Hrest.
            apply in_or_app. now left. }
        replace (detach node before ++ child :: t :: after)
          with ((detach node before ++ [child]) ++ t :: after)
          by (now rewrite <- app_assoc).
        rewrite (put_before_found node t _ after Ht).
        now rewrite <- app_assoc.
    + apply Nat.eqb_neq in E.
      rewrite Hdetach, (detach_other node s after E).
      replace (detach node before ++ child :: s :: detach node after)
        with ((detach node before ++ [child]) ++ s :: detach node after)
        by (now rewrite <- app_assoc).
      rewrite (put_before_found node s _ _ (Hfront s Hs Hsb)).
      now rewrite <- app_assoc.
Qed.

(** X19: [_insertAfter] puts the new node right after the reference node
    among the children of its parent and keeps the order of the others; a
    node that was already a child is moved there.  The children are told
    apart, and the new node is not the reference node. *)
Theorem insertAfter_places_node
        (newNode referenceNode : nat) (before after : NodeList) :
  NoDup (before ++ referenceNode :: after) ->
  newNode <> referenceNode ->
  _insertAfter newNode referenceNode (Some (before ++ referenceNode :: after))
  = Normal (Children (detach newNode before
                      ++ referenceNode :: newNode :: detach newNode after))
  /\ (~ In newNode (before ++ referenceNode :: after) ->
      _insertAfter newNode referenceNode
                   (Some (before ++ referenceNode :: after))
      = Normal (Children (before ++ referenceNode :: newNode :: after)))
  /\ (forall children,
        _insertAfter newNode referenceNode (Some children)
        <> Normal NotFoundError).
Proof.
  intros Hnd Hne.
  assert (Hb : ~ In referenceNode before).
  { intros H. apply (NoDup_remove_2 _ _ _ Hnd). apply in_or_app. now left. }
  assert (Hgen : _insertAfter newNode referenceNode
                   (Some (before ++ referenceNode :: after))
                 = Normal (Children
                             (detach newNode before
                              ++ referenceNode :: newNode
                                 :: detach newNode after))).
  { unfold _insertAfter. rewrite (nextSibling_found _ _ _ Hb).
    now rewrite (insertBefore_next_sibling _ _ _ _ Hnd Hne). }
  split; [exact Hgen|]. split.
  - intros Hfresh. rewrite Hgen.
    rewrite !detach_absent; [reflexivity| |].
    + intros H. apply Hfresh, in_or_app. right. now right.
    + intros H. apply Hfresh, in_or_app. now left.
  - intros children. unfold _insertAfter, insertBefore.
    destruct (nextSibling referenceNode children) as [s|] eqn:Es;
      [|discriminate].
    rewrite existsb_member by exact (nextSibling_member _ _ _ Es).
    discriminate.
Qed.

End InsertAfterProperties.

(** ** The second revision *)

Section SecondRevision.

Context {N : JsNumber}.

(** X20: with the same selector, and the defaults given under [View], the
    constructor of the second revision ends as the one of the first does:
    the same exception, or the same input text, map, view and marker; it
    adds the read-only state of the input, which is on only for
    [readOnly: true] itself, and a display style only if one is given.
    Unlike the first revision it throws when no settings are passed. *)
Theorem second_revision_agrees
        (selector : string) (settings : Settings2) (document : Document) :
  OsmPicker2 selector (Some settings) document
  = match OsmPicker (as_first_revision selector settings) document with
    | Normal p =>
        Normal {| picker := p;
                  input_readOnly := is_true (readOnly settings);
                  input_display :=
                    if truthy (display settings)
                    then Some (display settings) else None |}
    | Throw e => Throw e
    end
  /\ OsmPicker2 selector None document = Throw TypeError.
Proof.
  split; [|reflexivity].
  unfold OsmPicker2, OsmPicker, _initialize2, _initialize, as_first_revision.
  cbv zeta. unfold find_input, default_settings, default_view, map_element,
              selector_text. simpl.
  destruct (document selector) as [input|]; [|reflexivity].
  match goal with
  | |- match ?b with _ => _ end = _ => destruct b as [[u|e] p]
  end; reflexivity.
Qed.

End SecondRevision.

(** ** Further scenarios *)

Section MoreScenarios.

Import Scenario.

#[local] Existing Instance decimal_number.

(** The text [1,2,3,4]: the altitude is 3 and the 4 is dropped. *)
Lemma third_piece_is_altitude_witness :
  _getLatLngFromInput (set_value "1,2,3,4" blank)
  = (Normal (LatLngObj {| lat := literal "1"; lng := literal "2";
                          alt := Some (literal "3") |}),
     set_value "1,2,3,4" blank).
Proof.
  exact (third_piece_is_altitude (set_value "1,2,3,4" blank)
           "1" "2" "3" ["4"] eq_refl eq_refl eq_refl).
Defined.

(** A change to [1,abc] on a picker that shows a marker. *)
Lemma change_to_bad_component_is_rejected_witness :
  handle (InputChange "1,abc") marked
  = (Throw (InvalidLatLng (Prim (Str "1")) (Prim (Str "abc"))),
     set_value "1,abc" marked)
  /\ displayed (step marked (InputChange "1,abc"))
     = [coordinate "1.5" "-2.5"].
Proof.
  destruct (change_to_bad_component_is_rejected
              marked "1,abc" "1" "abc" [] eq_refl eq_refl)
    as (Hrun & Hshown & _).
  split; [exact Hrun|exact Hshown].
Defined.






(** A default coordinate of one element, [[1]]. *)
Lemma construction_rejects_bad_default_witness :
  exists e,
    OsmPicker (configured (Arr [Num (literal "1")]) undefined) (document "")
    = Throw e.
Proof.
  apply (construction_rejects_bad_default
           (configured (Arr [Num (literal "1")]) undefined)
           (document "") (mkInput "") eq_refl eq_refl).
  intros c. vm_compute. discriminate.
Defined.

(** The map created for the selector [location], after a click and a
    change. *)
Lemma map_stays_in_its_element_witness :
  elem_id (_container
             (getMap (run blank [MapClick (coordinate "10" "20");
                                 InputChange ""])))
  = "location-osm-picker".
Proof.
  exact (proj2 (proj2 (proj2 (map_stays_in_its_element
                                by_selector (document "") blank
                                [MapClick (coordinate "10" "20");
                                 InputChange ""]
                                eq_refl))) eq_refl).
Defined.

Lemma tile_layer_stays_witness :
  reachable (step marked (InputChange ""))
  /\ In osm_tiles (_layers (getMap (step marked (InputChange "")))).
Proof.
  assert (H : reachable (step marked (InputChange "")))
    by (apply reachable_step; exact marked_reachable).
  split; [exact H|]. exact (proj1 (tile_layer_stays _ H)).
Defined.

(** [setInputFromLatLng([7])]: the text becomes [7], the marker stays. *)
Lemma setInputFromLatLng_rejects_witness :
  value (_inputElement
           (step marked (SetInputFromLatLng (Arr [Num (literal "7")]))))
  = "7"
  /\ displayed (step marked (SetInputFromLatLng (Arr [Num (literal "7")])))
     = [coordinate "1.5" "-2.5"].
Proof.
  assert (Hbad : forall c,
             L_latLng (Arr [Num (literal "7")]) undefined undefined
             <> Normal (LatLngObj c))
    by (intros c; vm_compute; discriminate).
  destruct (setInputFromLatLng_rejects
              marked (Arr [Num (literal "7")]) Hbad)
    as (_ & _ & Hshown & _ & _ & Htext).
  split; [exact Htext|exact Hshown].
Defined.


Lemma null_only_from_change_witness :
  In null (setMarker_calls (step blank (InputChange "")))
  /\ (In null (setMarker_calls blank)
      \/ exists text,
          InputChange "" = InputChange text
          /\ JsString.no_comma text = true).
Proof.
  assert (H : In null (setMarker_calls (step blank (InputChange ""))))
    by (left; reflexivity).
  split; [exact H|]. exact (null_only_from_change blank (InputChange "") H).
Defined.

Lemma click_text_parses_back_witness :
  exists parsed,
    _getLatLngFromInput (step blank (MapClick (coordinate "10.0" "20.0")))
    = (Normal (LatLngObj parsed),
       step blank (MapClick (coordinate "10.0" "20.0")))
    /\ same_coordinate parsed (coordinate "10.0" "20.0") = true
    /\ alt parsed = None.
Proof.
  exact (click_text_parses_back decimal_number_laws blank
           (coordinate "10.0" "20.0") eq_refl eq_refl).
Defined.

Lemma triple_round_trip_witness :
  value (_inputElement
           (step blank (SetInputFromLatLng
                          (Arr [Num (literal "1.5"); Num (literal "-2.5");
                                Num (literal "100")]))))
  = "1.5,-2.5,100"
  /\ exists parsed height,
      _getLatLngFromInput
        (step blank (SetInputFromLatLng
                       (Arr [Num (literal "1.5"); Num (literal "-2.5");
                             Num (literal "100")])))
      = (Normal (LatLngObj parsed),
         step blank (SetInputFromLatLng
                       (Arr [Num (literal "1.5"); Num (literal "-2.5");
                             Num (literal "100")])))
      /\ alt parsed = Some height
      /\ num_eqb height (literal "100") = true.
Proof.
  split; [reflexivity|].
  destruct (triple_round_trip decimal_number_laws blank
              (Num (literal "1.5")) (Num (literal "-2.5"))
              (Num (literal "100")) eq_refl eq_refl eq_refl)
    as (parsed & height & Hparse & _ & _ & _ & Halt & Heq).
  exists parsed, height. split; [exact Hparse|]. split; [exact Halt|exact Heq].
Defined.


(** A [div] inserted after the second of three children. *)
Lemma insertAfter_places_node_witness :
  _insertAfter 9 2 (Some [1; 2; 3]) = Normal (Children [1; 2; 9; 3]).
Proof.
  assert (Hnd : NoDup ([1] ++ 2 :: [3])%list).
  { repeat constructor; simpl; intros H;
      repeat (destruct H as [H|H]; [discriminate H|]); exact H. }
  assert (Hne : 9 <> 2) by discriminate.
  assert (Hfresh : ~ In 9 ([1] ++ 2 :: [3])%list).
  { simpl. intros H.
    repeat (destruct H as [H|H]; [discriminate H|]). exact H. }
  exact (proj1 (proj2 (insertAfter_places_node 9 2 [1] [3] Hnd Hne)) Hfresh).
Defined.

End MoreScenarios.
